(** * Job application tracker API: the Express handlers of [server.js]

    A shallow embedding of
    [day17-intro-to-node-and-express-requests-and-routing/job-application-tracker-api/server.js]
    and the properties of its routes.

    Modelling conventions.
    - The module-level array [jobs] is the only state.  Every handler is a
      function from the array before the request to the response and the
      array after it.  The initial contents come from [./jobs], which is
      not part of the sources, so every statement quantifies over the
      array.
    - Request bodies are what [express.json()] hands over: in its default
      strict mode a JSON object or a JSON array, and [{}] when no JSON body
      was sent.  The elements of [jobs] are of the same kind ([record]).
    - A JSON object is a finite map from keys to JSON values; the order of
      the keys is not modelled.
    - JavaScript numbers are IEEE 754 doubles: Rocq's primitive floats,
      with their equality and addition.  [Num z] is the number value of the
      integer [z]: the nearest double, ties to even, infinite from
      2^1024 - 2^970 on.
    - Number::toString, the shortest decimal form of a double, is not
      written out; the functions that need it take it as an argument.
    - A string is a sequence of code units below 256. *)

From Stdlib Require Import Ascii String Floats.
From stdpp Require Import gmap strings list fin_maps pretty.

#[local] Set Warnings "-register-all".
#[local] Open Scope Z_scope.

(** ** JSON values and JavaScript primitives *)

Inductive json : Type :=
  | JNull
  | JBool (b : bool)
  | JNum (n : float)
  | JStr (s : string)
  | JArr (l : list json)
  | JObj (m : gmap string json).

(** What [express.json()] produces and what [jobs] holds: an object or an
    array. *)
Inductive record : Type :=
  | Obj (m : gmap string json)
  | Arr (l : list json).

(** A JavaScript number. *)
Definition number : Type := float.

Definition NaN : number := nan.

(** The number value of an integer: the integer rounded to the nearest
    double, as [binary_normalize] of the Standard Library does it (it is
    the specification of [PrimFloat.of_uint63]).  [Num 9007199254740993]
    is [9007199254740992]. *)
Definition Num (z : Z) : number :=
  SF2Prim (binary_normalize prec emax z 0 false).

(** The result of [x + 1]: a number or, by concatenation, a string. *)
Inductive prim : Type :=
  | PNum (n : number)
  | PStr (s : string).

Module Js.

Definition to_json (r : record) : json :=
  match r with
  | Obj m => JObj m
  | Arr l => JArr l
  end.

(** *** Property access and strict equality *)

(** [r.id]: [None] is [undefined].  An array has the index keys and
    [length] only. *)
Definition prop_id (r : record) : option json :=
  match r with
  | Obj m => m !! "id"
  | Arr _ => None
  end.

(** [v === n] for a number [n]: true only for a number, equal to [n] as a
    double; [NaN] is equal to nothing, [0] and [-0] are equal. *)
Definition strict_eq (v : option json) (n : number) : bool :=
  match v with
  | Some (JNum a) => PrimFloat.eqb a n
  | _ => false
  end.

(** *** [parseInt(string, radix)], ECMAScript 19.2.5 *)

Definition code (a : ascii) : Z := Z.of_N (Ascii.N_of_ascii a).

(** White space and line terminators among the code units below 256. *)
Definition is_white_space (a : ascii) : bool :=
  let c := code a in
  ((9 <=? c) && (c <=? 13)) || (c =? 32) || (c =? 160).

Fixpoint trim_start (s : string) : string :=
  match s with
  | String a s' => if is_white_space a then trim_start s' else s
  | EmptyString => EmptyString
  end.

(** Steps 4 to 6: the sign and the rest of the string after it. *)
Definition split_sign (s : string) : Z * string :=
  match s with
  | String a s' =>
      if code a =? 45 then (-1, s')
      else if code a =? 43 then (1, s')
      else (1, s)
  | EmptyString => (1, s)
  end.

(** The value of a code unit as a digit: 0-9, a-z and A-Z. *)
Definition digit_value (a : ascii) : option Z :=
  let c := code a in
  if (48 <=? c) && (c <=? 57) then Some (c - 48)
  else if (97 <=? c) && (c <=? 122) then Some (c - 87)
  else if (65 <=? c) && (c <=? 90) then Some (c - 55)
  else None.

(** Step 11: the longest prefix made of radix-R digits. *)
Fixpoint digits_prefix (R : Z) (s : string) : list Z :=
  match s with
  | String a s' =>
      match digit_value a with
      | Some d => if d <? R then d :: digits_prefix R s' else []
      | None => []
      end
  | EmptyString => []
  end.

Definition math_int (R : Z) (ds : list Z) : Z :=
  foldl (fun acc d => acc * R + d) 0 ds.

(** Step 10: a leading 0x or 0X. *)
Definition strip_hex_prefix (s : string) : option string :=
  match s with
  | String a (String b s') =>
      if (code a =? 48) && ((code b =? 120) || (code b =? 88))
      then Some s' else None
  | _ => None
  end.

(** [radix] is the radix argument after ToInt32; a missing argument is 0. *)
Definition parseInt (s : string) (radix : Z) : number :=
  let '(sign, rest) := split_sign (trim_start s) in
  if (radix =? 0) || ((2 <=? radix) && (radix <=? 36)) then
    let stripPrefix := (radix =? 0) || (radix =? 16) in
    let R := if radix =? 0 then 10 else radix in
    let '(R, rest) :=
      match (if stripPrefix then strip_hex_prefix rest else None) with
      | Some rest' => (16, rest')
      | None => (R, rest)
      end in
    match digits_prefix R rest with
    | [] => NaN
    | ds =>
        let mathInt := math_int R ds in
        if mathInt =? 0 then (if sign =? -1 then neg_zero else Num 0)
        else Num (sign * mathInt)
    end
  else NaN.

(** *** Arrays *)

(** [Array.prototype.find]: the first element satisfying [p], or
    [undefined]. *)
Fixpoint find {A} (p : A -> bool) (l : list A) : option A :=
  match l with
  | [] => None
  | x :: l' => if p x then Some x else find p l'
  end.

Fixpoint findIndex_from {A} (p : A -> bool) (l : list A) (k : Z) : Z :=
  match l with
  | [] => -1
  | x :: l' => if p x then k else findIndex_from p l' (k + 1)
  end.

(** [Array.prototype.findIndex]: the index of the first element satisfying
    [p], or -1. *)
Definition findIndex {A} (p : A -> bool) (l : list A) : Z :=
  findIndex_from p l 0.

(** [l[i]]: [undefined] outside the array, in particular at -1. *)
Definition index {A} (l : list A) (i : Z) : option A :=
  if i <? 0 then None else l !! Z.to_nat i.

(** [l[i] = x] for an index inside the array.  (Outside it JavaScript
    would add a property or extend the array; the handlers only write at
    an index that [findIndex] returned, see [findIndex_found].) *)
Definition index_set {A} (l : list A) (i : Z) (x : A) : list A :=
  <[Z.to_nat i := x]> l.

(** [l.push(x)] *)
Definition push {A} (l : list A) (x : A) : list A := l ++ [x].

(** [l.splice(start, deleteCount)]: the array that is left. *)
Definition splice {A} (l : list A) (start deleteCount : Z) : list A :=
  let len := Z.of_nat (length l) in
  let actualStart :=
    if start <? 0 then Z.max (len + start) 0 else Z.min start len in
  let actualDeleteCount := Z.min (Z.max deleteCount 0) (len - actualStart) in
  take (Z.to_nat actualStart) l
    ++ drop (Z.to_nat (actualStart + actualDeleteCount)) l.

(** *** Object spread *)

(** The own enumerable properties that [{...r}] copies. *)
Definition own_props (r : option record) : gmap string json :=
  match r with
  | None => ∅
  | Some (Obj m) => m
  | Some (Arr l) => list_to_map (imap (fun i v => (pretty i, v)) l)
  end.

(** Copying the properties of [source] onto [target]: the source wins. *)
Definition copy_props (target source : gmap string json) : gmap string json :=
  source ∪ target.

(** [{ ...a, ...b }] *)
Definition spread2 (a b : option record) : record :=
  Obj (copy_props (copy_props ∅ (own_props a)) (own_props b)).

(** *** ToString and [+] *)

Definition join (sep : string) (l : list string) : string :=
  match l with
  | [] => ""
  | s :: l' => foldl (fun acc t => acc +:+ sep +:+ t) s l'
  end.

Section ToString.

(** Number::toString. *)
Variable number_to_string : number -> string.

(** ToString of a JSON value; inside [Array.prototype.join] a [null]
    element gives the empty string. *)
Fixpoint to_string (v : json) : string :=
  match v with
  | JNull => "null"
  | JBool true => "true"
  | JBool false => "false"
  | JNum n => number_to_string n
  | JStr s => s
  | JArr l =>
      join ","
        ((fix elements (l : list json) : list string :=
            match l with
            | [] => []
            | JNull :: l' => "" :: elements l'
            | x :: l' => to_string x :: elements l'
            end) l)
  | JObj _ => "[object Object]"
  end.

(** [v + 1] for a property value [v] ([None] is [undefined]). *)
Definition add_one (v : option json) : prim :=
  match v with
  | None => PNum NaN
  | Some JNull => PNum (Num 1)
  | Some (JBool b) => PNum (PrimFloat.add (if b then Num 1 else Num 0) (Num 1))
  | Some (JNum n) => PNum (PrimFloat.add n (Num 1))
  | Some x => PStr (to_string x +:+ "1")
  end.

End ToString.

End Js.

(** ** The server *)

Module Server.
Import Js.

(** What [res.send] was given: a string or a value sent as JSON. *)
Inductive payload : Type :=
  | Text (s : string)
  | Json (j : json).

Record response : Type := Response { status : Z; sent : payload }.

(** [res.send(x)] with the default status, and [res.status(c).send(x)]. *)
Definition send (x : payload) : response := Response 200 x.
Definition status_send (c : Z) (x : payload) : response := Response c x.

(** [{ message: text }] *)
Definition message (text : string) : payload :=
  Json (JObj {[ "message" := JStr text ]}).

(** The array [jobs] before a request, the response and [jobs] after it. *)
Definition handler : Type := list record -> response * list record.

(** [job.id === jobId], the callback of [find] and [findIndex]. *)
Definition has_id (jobId : number) (job : record) : bool :=
  strict_eq (prop_id job) jobId.

(** [number_to_string] is Number::toString, which [lastRecord.id + 1] uses
    when the id is an array with a number in it. *)
Definition getNextIdFromCollection (number_to_string : number -> string)
    (collection : list record) : prim :=
  if Z.of_nat (length collection) =? 0 then PNum (Num 1)
  else
    match index collection (Z.of_nat (length collection) - 1) with
    | Some lastRecord => add_one number_to_string (prop_id lastRecord)
    | None => PNum NaN (* not reached: the index is inside the array *)
    end.

(** [app.get("/")] *)
Definition welcome : handler := fun jobs =>
  (send (Text "welcome to the Job App tracker API!!"), jobs).

(** [app.get("/jobs")] *)
Definition listJobs : handler := fun jobs =>
  (send (Json (JArr (to_json <$> jobs))), jobs).

(** [app.get("/jobs/:id")]; an object or an array is truthy, [undefined]
    is not. *)
Definition getJob (id : string) : handler := fun jobs =>
  let jobId := parseInt id 0 in
  let job := find (has_id jobId) jobs in
  match job with
  | Some job => (send (Json (to_json job)), jobs)
  | None => (status_send 404 (message "Job not found"), jobs)
  end.

(** [app.post("/jobs")] *)
Definition createJob (body : record) : handler := fun jobs =>
  let newJob := body in
  let jobs := push jobs newJob in
  (status_send 201 (Json (to_json newJob)), jobs).

(** [app.patch("/jobs/:id")] *)
Definition patchJob (id : string) (body : record) : handler := fun jobs =>
  let jobId := parseInt id 10 in
  let jobUpdates := body in
  let jobIndex := findIndex (has_id jobId) jobs in
  let updatedJob := spread2 (index jobs jobIndex) (Some jobUpdates) in
  if negb (jobIndex =? -1) then
    let jobs := index_set jobs jobIndex updatedJob in
    (send (Json (to_json updatedJob)), jobs)
  else (status_send 404 (message "Job not found"), jobs).

(** [app.delete("/jobs/:id")] *)
Definition deleteJob (id : string) : handler := fun jobs =>
  let jobId := parseInt id 10 in
  let jobIndex := findIndex (has_id jobId) jobs in
  if negb (jobIndex =? -1) then
    let jobs := splice jobs jobIndex 1 in
    (send (message "Job deleted successfully"), jobs)
  else (status_send 404 (message "Job not found"), jobs).

(** *** The steps of the update route, in the order of the source *)

Inductive step : Type :=
  | FindIndex (jobIndex : Z)
  | Merge (existing : option record) (jobUpdates : record)
  | CheckExists (found : bool)
  | Write (jobIndex : Z) (updatedJob : record)
  | Respond (res : response).

(** A result together with the steps taken to reach it. *)
Definition traced (A : Type) : Type := list step * A.

Definition after {A} (s : step) (m : traced A) : traced A :=
  (s :: fst m, snd m).

(** [app.patch("/jobs/:id")] with its steps: the search of line 53, the
    spread of line 54, the test of line 55, the assignment of line 56 and
    the [res.send] of line 57 or 59. *)
Definition patchJob_steps (id : string) (body : record) (jobs : list record)
    : traced (response * list record) :=
  let jobId := parseInt id 10 in
  let jobUpdates := body in
  let jobIndex := findIndex (has_id jobId) jobs in
  after (FindIndex jobIndex) (
  let updatedJob := spread2 (index jobs jobIndex) (Some jobUpdates) in
  after (Merge (index jobs jobIndex) jobUpdates) (
  after (CheckExists (negb (jobIndex =? -1))) (
  if negb (jobIndex =? -1) then
    let jobs := index_set jobs jobIndex updatedJob in
    after (Write jobIndex updatedJob) (
    after (Respond (send (Json (to_json updatedJob))))
      ([], (send (Json (to_json updatedJob)), jobs)))
  else
    after (Respond (status_send 404 (message "Job not found")))
      ([], (status_send 404 (message "Job not found"), jobs))))).

(** Every merge among the steps comes after an existence check. *)
Definition checks_before_merging (steps : list step) : Prop :=
  forall (i : nat) existing jobUpdates,
    steps !! i = Some (Merge existing jobUpdates) ->
    exists (j : nat) found, (j < i)%nat /\ steps !! j = Some (CheckExists found).

(** The routes of the application. *)
Inductive request : Type :=
  | GET_root
  | GET_jobs
  | GET_job (id : string)
  | POST_jobs (body : record)
  | PATCH_job (id : string) (body : record)
  | DELETE_job (id : string).

Definition handle (req : request) : handler :=
  match req with
  | GET_root => welcome
  | GET_jobs => listJobs
  | GET_job id => getJob id
  | POST_jobs body => createJob body
  | PATCH_job id body => patchJob id body
  | DELETE_job id => deleteJob id
  end.

(** The requests whose handler assigns to, pushes onto or splices [jobs]. *)
Definition writes_jobs (req : request) : bool :=
  match req with
  | POST_jobs _ | PATCH_job _ _ | DELETE_job _ => true
  | GET_root | GET_jobs | GET_job _ => false
  end.

(** The 404 response of the three routes with a path identifier. *)
Definition not_found : response :=
  Response 404 (Json (JObj {[ "message" := JStr "Job not found" ]})).

(** How many records of [jobs] have the id [n]. *)
Definition count_id (n : number) (jobs : list record) : nat :=
  length (filter (fun job => has_id n job = true) jobs).

(** Whether the identifier, after its leading white space and one optional
    sign, starts with a decimal digit. *)
Definition leading_decimal_digit (id : string) : bool :=
  match snd (split_sign (trim_start id)) with
  | String a _ => (48 <=? code a) && (code a <=? 57)
  | EmptyString => false
  end.

(** Whether the identifier is a plain decimal numeral: digits only, at
    least one. *)
Fixpoint all_decimal_digits (id : string) : bool :=
  match id with
  | String a EmptyString => (48 <=? code a) && (code a <=? 57)
  | String a id' => (48 <=? code a) && (code a <=? 57) && all_decimal_digits id'
  | EmptyString => false
  end.

(** The path identifier of a request, for the routes that have one. *)
Definition path_id (req : request) : option string :=
  match req with
  | GET_job id | PATCH_job id _ | DELETE_job id => Some id
  | GET_root | GET_jobs | POST_jobs _ => None
  end.

End Server.

(** ** Sample data *)

Module Sample.
Import Js Server.

Definition applied : record :=
  Obj {[ "id" := JNum 1%float; "status" := JStr "Applied" ]}.
Definition interviewing : record :=
  Obj {[ "status" := JStr "Interviewing" ]}.
Definition offer : record :=
  Obj {[ "id" := JNum 1%float; "status" := JStr "Offer" ]}.
Definition titleA : record := Obj {[ "title" := JStr "A" ]}.
Definition twelve : record := Obj {[ "id" := JNum 12%float ]}.
Definition renumber : record := Obj {[ "id" := JNum 7%float ]}.

Definition big : record := Obj {[ "id" := JNum 9007199254740992%float ]}.

(** A stand-in for Number::toString in examples: right on 1, 7 and 12, the
    numbers of the samples. *)
Definition show_small (n : number) : string :=
  if PrimFloat.eqb n 1 then "1" else if PrimFloat.eqb n 12 then "12" else "7".

End Sample.

(** ** Sequences of requests *)

Module Session.
Import Js Server.

(** The registry after the server has handled the requests in turn. *)
Definition serve (reqs : list request) (jobs : list record) : list record :=
  foldl (fun jobs req => snd (handle req jobs)) jobs reqs.

(** The requests that cannot bring a new id into the registry: everything
    but a create, and an update only when its body has no key [id]. *)
Definition keeps_ids (req : request) : bool :=
  match req with
  | POST_jobs _ => false
  | PATCH_job _ body => bool_decide (own_props (Some body) !! "id" = None)
  | GET_root | GET_jobs | GET_job _ | DELETE_job _ => true
  end.

End Session.

(** ** Characters of an identifier *)

Module Chars.
Import Js.

Definition is_decimal_digit (a : ascii) : bool :=
  (48 <=? code a) && (code a <=? 57).

(** The letter x, in either case. *)
Definition is_x (a : ascii) : bool := (code a =? 120) || (code a =? 88).

Definition starts_with (p : ascii -> bool) (s : string) : bool :=
  match s with
  | String a _ => p a
  | EmptyString => false
  end.

Fixpoint string_forall (p : ascii -> bool) (s : string) : bool :=
  match s with
  | String a s' => p a && string_forall p s'
  | EmptyString => true
  end.

End Chars.

(** ** The status buttons of [App.jsx]

    [day10-react-state-and-events/job-app-tracker-starter/src/App.jsx].
    The component has one piece of state, [selectedStatus]; a render maps
    it to the buttons, and a click on a button sets it. *)

Module App.
Import Js.

(** [a === b] for two numbers. *)
Definition number_eq (a b : number) : bool := PrimFloat.eqb a b.

(** The object literal [statuses]; its keys are integer keys, which
    [Object.keys] lists in ascending order, as strings. *)
Definition statuses : list (string * string) :=
  [ ("1", "Bookmarked"); ("2", "Applying"); ("3", "Applied");
    ("4", "Interviewing"); ("5", "Negotiating"); ("6", "Accepted") ].

Definition keys (o : list (string * string)) : list string := fst <$> o.

(** [o[k]]; [None] is [undefined]. *)
Definition get (o : list (string * string)) (k : string) : option string :=
  (list_to_map o : gmap string string) !! k.

(** A rendered [<button>]: [onClick] is the value that the click handler
    passes to [setSelectedStatus]. *)
Record button : Type := Button {
  key : string;
  className : string;
  onClick : number;
  children : option string
}.

(** [useState(1)] *)
Definition initialStatus : number := Num 1.

Definition statusbuttons (selectedStatus : number) : list button :=
  (fun statusId =>
     let buttonClass :=
       if number_eq selectedStatus (parseInt statusId 0)
       then "bg-blue-500" else "" in
     Button statusId buttonClass (parseInt statusId 0) (get statuses statusId))
  <$> keys statuses.

(** [jobs.map((job, i) => <JobCard job={job} key={i} />)]: the key and the
    job of each card. *)
Definition jobCards (jobs : list record) : list (nat * record) :=
  imap (fun i job => (i, job)) jobs.

(** The state after a click on the button at position [i] of the current
    render (no button there: no click). *)
Definition click (selectedStatus : number) (i : nat) : number :=
  match statusbuttons selectedStatus !! i with
  | Some b => onClick b
  | None => selectedStatus
  end.

(** The state after a series of clicks, from the initial state. *)
Definition clicks (positions : list nat) : number :=
  foldl click initialStatus positions.

(** The positions of the highlighted buttons of a render. *)
Definition highlighted (selectedStatus : number) : list nat :=
  fst <$> filter (fun ib => className ib.2 = "bg-blue-500")
            (imap (fun i b => (i, b)) (statusbuttons selectedStatus)).

End App.

(** ** The recipe route of [EXTERNAL_APIS.md]

    [upstream] stands for [axios.get(url, { params })]: the data of the
    answer, or [None] when the call throws.  A parameter whose value is
    [None] is [undefined]. *)

Module Recipes.
Import Server.

(** [{ ...req.query, apiKey: apiKey }] *)
Definition params (apiKey : option string) (query : gmap string json)
    : gmap string (option json) :=
  <["apiKey" := JStr <$> apiKey]> (Some <$> query).

(** [app.get('/recipes')]; [apiKey] is [process.env.SPOONACULAR_API_KEY]. *)
Definition recipes (upstream : gmap string (option json) -> option json)
    (apiKey : option string) (query : gmap string json) : response :=
  match upstream (params apiKey query) with
  | Some data => Response 200 (Json data)
  | None => Response 500 (Text "An error occurred")
  end.

End Recipes.

(** ** Facts about the JavaScript operations *)

Module JsFacts.
Import Js.

Section FirstMatch.
Context {A : Type} (p : A -> bool).

(** [find] and [findIndex] are the two halves of stdpp's [list_find]. *)
Lemma find_list_find (l : list A) :
  find p l = snd <$> list_find (fun x => p x = true) l.
Proof.
  induction l as [|x l IH]; [done|].
  cbn [find list_find]. destruct (p x) eqn:Hx.
  - by rewrite decide_True.
  - rewrite decide_False by congruence. rewrite IH.
    by destruct (list_find _ l) as [[??]|].
Qed.

Lemma findIndex_from_list_find (l : list A) (k : Z) :
  findIndex_from p l k =
    match list_find (fun x => p x = true) l with
    | Some (i, _) => k + Z.of_nat i
    | None => -1
    end.
Proof.
  revert k. induction l as [|x l IH]; intros k; [done|].
  cbn [findIndex_from list_find]. destruct (p x) eqn:Hx.
  - rewrite decide_True by done. simpl. lia.
  - rewrite decide_False by congruence. rewrite IH.
    destruct (list_find _ l) as [[i y]|]; simpl; lia.
Qed.

Lemma find_none (l : list A) :
  (forall x, x ∈ l -> p x = false) -> find p l = None.
Proof.
  intros H. rewrite find_list_find.
  replace (list_find _ l) with (@None (nat * A)); [done|].
  symmetry. apply list_find_None, Forall_forall.
  intros x Hx. rewrite (H x Hx). done.
Qed.

Lemma find_some (l : list A) (x : A) :
  find p l = Some x -> x ∈ l /\ p x = true.
Proof.
  rewrite find_list_find.
  destruct (list_find _ l) as [[i y]|] eqn:E; [|done].
  intros [= <-]. apply list_find_Some in E as (Hi & Hp & _).
  split; [by eapply list_elem_of_lookup_2|done].
Qed.

Lemma findIndex_none (l : list A) :
  (forall x, x ∈ l -> p x = false) -> findIndex p l = -1.
Proof.
  intros H. unfold findIndex. rewrite findIndex_from_list_find.
  replace (list_find _ l) with (@None (nat * A)); [done|].
  symmetry. apply list_find_None, Forall_forall.
  intros x Hx. rewrite (H x Hx). done.
Qed.

(** The index is that of the first element satisfying [p]. *)
Lemma findIndex_first (l : list A) (i : nat) (x : A) :
  l !! i = Some x -> p x = true ->
  (forall j y, (j < i)%nat -> l !! j = Some y -> p y = false) ->
  findIndex p l = Z.of_nat i.
Proof.
  intros Hi Hx Hfirst. unfold findIndex. rewrite findIndex_from_list_find.
  replace (list_find _ l) with (Some (i, x)); [lia|].
  symmetry. apply list_find_Some. repeat split; [done..|].
  intros j y Hj Hlt. rewrite (Hfirst j y Hlt Hj). done.
Qed.

(** Conversely, [findIndex] answers -1 or an index inside the array, at
    which the first element satisfying [p] is. *)
Lemma findIndex_found (l : list A) :
  findIndex p l = -1 /\ (forall x, x ∈ l -> p x = false)
  \/ exists i x, findIndex p l = Z.of_nat i /\ l !! i = Some x /\ p x = true
       /\ (forall j y, (j < i)%nat -> l !! j = Some y -> p y = false).
Proof.
  unfold findIndex. rewrite findIndex_from_list_find.
  destruct (list_find _ l) as [[i x]|] eqn:E.
  - right. exists i, x. apply list_find_Some in E as (Hi & Hp & Hfirst).
    split; [lia|]. split; [done|]. split; [done|].
    intros j y Hlt Hj. specialize (Hfirst j y Hj Hlt). by destruct (p y).
  - left. split; [done|]. intros x Hx.
    apply list_find_None in E. rewrite Forall_forall in E.
    specialize (E x Hx). by destruct (p x).
Qed.

Lemma exists_first (l : list A) (x : A) :
  x ∈ l -> p x = true ->
  exists i y, l !! i = Some y /\ p y = true
    /\ (forall j z, (j < i)%nat -> l !! j = Some z -> p z = false).
Proof.
  intros Hx Hp. destruct (findIndex_found l) as [[_ Hno]|(i & y & _ & H)].
  - rewrite (Hno x Hx) in Hp. done.
  - by exists i, y.
Qed.

End FirstMatch.

Lemma findIndex_ext {A} (p q : A -> bool) (l : list A) :
  (forall x, p x = q x) -> findIndex p l = findIndex q l.
Proof.
  intros Hpq. unfold findIndex. generalize 0.
  induction l as [|x l IH]; intros k; [done|].
  cbn [findIndex_from]. rewrite Hpq. by rewrite IH.
Qed.

Lemma index_of_nat {A} (l : list A) (i : nat) :
  index l (Z.of_nat i) = l !! i.
Proof.
  unfold index. rewrite (proj2 (Z.ltb_ge _ _)) by lia. by rewrite Nat2Z.id.
Qed.

Lemma index_minus_one {A} (l : list A) : index l (-1) = None.
Proof. done. Qed.

(** Splicing one element out at an index inside the array deletes it. *)
Lemma splice_one {A} (l : list A) (i : nat) :
  (i < length l)%nat -> splice l (Z.of_nat i) 1 = delete i l.
Proof.
  intros Hi. unfold splice.
  rewrite (proj2 (Z.ltb_ge _ _)) by lia.
  rewrite Z.min_l by lia. rewrite Z.max_l by lia. rewrite Z.min_l by lia.
  rewrite Nat2Z.id. replace (Z.to_nat (Z.of_nat i + 1)) with (S i) by lia.
  by rewrite delete_take_drop.
Qed.

(** [NaN] is equal to nothing, and [-0] is equal to what [0] is equal to. *)
Lemma eqb_NaN (a : number) : PrimFloat.eqb a NaN = false.
Proof.
  rewrite FloatAxioms.eqb_spec. change (Prim2SF NaN) with S754_nan.
  unfold SFeqb. by destruct (Prim2SF a).
Qed.

Lemma eqb_neg_zero (a : number) :
  PrimFloat.eqb a neg_zero = PrimFloat.eqb a (Num 0).
Proof.
  rewrite !FloatAxioms.eqb_spec.
  change (Prim2SF neg_zero) with (S754_zero true).
  change (Prim2SF (Num 0)) with (S754_zero false).
  unfold SFeqb. by destruct (Prim2SF a) as [[]|[]| |[] ? ?].
Qed.

End JsFacts.

(** ** Facts about [parseInt] *)

Module ParseIntFacts.
Import Js Server.

Lemma digits_prefix_10_nil (rest : string) :
  match rest with
  | String a _ => (48 <=? code a) && (code a <=? 57)
  | EmptyString => false
  end = false ->
  digits_prefix 10 rest = [].
Proof.
  destruct rest as [|a rest]; [done|]. cbn [digits_prefix].
  unfold digit_value. generalize (code a). intros c Hc.
  rewrite Hc.
  destruct ((97 <=? c) && (c <=? 122)) eqn:Hlow.
  - apply andb_true_iff in Hlow as [H1%Z.leb_le H2%Z.leb_le].
    by rewrite (proj2 (Z.ltb_ge _ _)) by lia.
  - destruct ((65 <=? c) && (c <=? 90)) eqn:Hup; [|done].
    apply andb_true_iff in Hup as [H1%Z.leb_le H2%Z.leb_le].
    by rewrite (proj2 (Z.ltb_ge _ _)) by lia.
Qed.

Lemma strip_hex_prefix_none (rest : string) :
  match rest with
  | String a _ => (48 <=? code a) && (code a <=? 57)
  | EmptyString => false
  end = false ->
  strip_hex_prefix rest = None.
Proof.
  destruct rest as [|a [|b rest]]; [done..|]. cbn [strip_hex_prefix].
  generalize (code a). intros c Hc.
  destruct (c =? 48) eqn:E; [|done].
  apply Z.eqb_eq in E. subst c. done.
Qed.

(** An identifier that does not start with a decimal digit (after white
    space and a sign) is [NaN], with the radix 10 and with none. *)
Lemma parseInt_no_leading_digit (id : string) (radix : Z) :
  radix = 0 \/ radix = 10 ->
  leading_decimal_digit id = false ->
  parseInt id radix = NaN.
Proof.
  unfold leading_decimal_digit, parseInt.
  destruct (split_sign (trim_start id)) as [sign rest]. cbn [snd].
  intros [-> | ->] H; cbn.
  - by rewrite strip_hex_prefix_none, digits_prefix_10_nil.
  - by rewrite digits_prefix_10_nil.
Qed.

(** Identifiers beyond the exact range of the doubles: the numeral of
    2^53 + 3 parses to 2^53 + 4 and that of 2^53 + 1 to 2^53 (ties go to
    the even double), and the record with id 2^53 is the one that the
    routes find; a numeral of 400 digits is infinite; ["-0"] is the
    negative zero, which is equal to the id 0. *)
Example parseInt_rounds :
  parseInt "9007199254740995" 10 = 9007199254740996%float /\
  parseInt "9007199254740993" 10 = 9007199254740992%float /\
  parseInt "9007199254740993" 0 = 9007199254740992%float /\
  getJob "9007199254740993" [Sample.big]
    = (Response 200 (Json (to_json Sample.big)), [Sample.big]) /\
  snd (deleteJob "9007199254740993" [Sample.big]) = [].
Proof. repeat split; reflexivity. Qed.

Example parseInt_overflows :
  parseInt (pretty (10 ^ 400)) 10 = infinity /\
  parseInt ("-" +:+ pretty (10 ^ 400)) 10 = neg_infinity.
Proof. split; vm_compute; reflexivity. Qed.

Example parseInt_negative_zero :
  parseInt "-0" 10 = neg_zero /\
  has_id (parseInt "-0" 10) (Obj {[ "id" := JNum 0%float ]}) = true.
Proof. split; reflexivity. Qed.

End ParseIntFacts.

(** ** Facts about the handlers *)

Module ServerFacts.
Import Js Server JsFacts.

Lemma has_id_NaN (job : record) : has_id NaN job = false.
Proof.
  unfold has_id, strict_eq.
  destruct (prop_id job) as [[| |a| | |]|]; try done. apply eqb_NaN.
Qed.

Lemma has_id_neg_zero (job : record) :
  has_id neg_zero job = has_id (Num 0) job.
Proof.
  unfold has_id, strict_eq.
  destruct (prop_id job) as [[| |a| | |]|]; try done. apply eqb_neg_zero.
Qed.

Lemma length_filter_delete {A} (P : A -> Prop) `{!forall x, Decision (P x)}
    (l : list A) (i : nat) (x : A) :
  l !! i = Some x -> P x ->
  S (length (filter P (delete i l))) = length (filter P l).
Proof.
  revert i. induction l as [|y l IH]; intros [|i] Hi HP; try done.
  - injection Hi as ->. cbn [delete list_delete]. by rewrite filter_cons_True.
  - cbn [delete list_delete]. rewrite !filter_cons.
    destruct (decide (P y)); cbn [length]; by rewrite <- (IH i).
Qed.

Lemma count_id_delete (n : number) (jobs : list record) (i : nat) (job : record) :
  jobs !! i = Some job -> has_id n job = true ->
  S (count_id n (delete i jobs)) = count_id n jobs.
Proof. intros Hi Hn. unfold count_id. by eapply length_filter_delete. Qed.

Lemma count_id_zero (n : number) (jobs : list record) :
  count_id n jobs = 0%nat -> forall job, job ∈ jobs -> has_id n job = false.
Proof.
  unfold count_id. intros H%length_zero_iff_nil job Hjob.
  destruct (has_id n job) eqn:E; [|done].
  assert (job ∈ filter (fun job => has_id n job = true) jobs) as Hin
    by (by apply list_elem_of_filter).
  rewrite H in Hin. by apply elem_of_nil in Hin.
Qed.

(** The three routes with an identifier, when [findIndex] and [find] find
    nothing. *)
Lemma getJob_absent (id : string) (jobs : list record) :
  (forall job, job ∈ jobs -> has_id (parseInt id 0) job = false) ->
  getJob id jobs = (not_found, jobs).
Proof. intros H. unfold getJob. by rewrite find_none. Qed.

Lemma patchJob_absent (id : string) (body : record) (jobs : list record) :
  (forall job, job ∈ jobs -> has_id (parseInt id 10) job = false) ->
  patchJob id body jobs = (not_found, jobs).
Proof. intros H. unfold patchJob. by rewrite findIndex_none. Qed.

Lemma deleteJob_absent (id : string) (jobs : list record) :
  (forall job, job ∈ jobs -> has_id (parseInt id 10) job = false) ->
  deleteJob id jobs = (not_found, jobs).
Proof. intros H. unfold deleteJob. by rewrite findIndex_none. Qed.

(** The update of the first record with the identifier. *)
Lemma patchJob_first (id : string) (body : record) (jobs : list record)
    (p : nat) (job : record) :
  jobs !! p = Some job ->
  has_id (parseInt id 10) job = true ->
  (forall q job', (q < p)%nat -> jobs !! q = Some job' ->
     has_id (parseInt id 10) job' = false) ->
  patchJob id body jobs =
    (Response 200 (Json (JObj (own_props (Some body) ∪ own_props (Some job)))),
     <[p := Obj (own_props (Some body) ∪ own_props (Some job))]> jobs).
Proof.
  intros Hp Hid Hfirst. unfold patchJob.
  rewrite (findIndex_first _ jobs p job Hp Hid Hfirst).
  rewrite index_of_nat, Hp.
  rewrite (proj2 (Z.eqb_neq _ _)) by lia. cbn [negb].
  unfold index_set, spread2, copy_props, send. rewrite Nat2Z.id.
  by rewrite (right_id_L ∅ (∪)).
Qed.

(** The deletion of the first record with the identifier. *)
Lemma deleteJob_first (id : string) (jobs : list record)
    (p : nat) (job : record) :
  jobs !! p = Some job ->
  has_id (parseInt id 10) job = true ->
  (forall q job', (q < p)%nat -> jobs !! q = Some job' ->
     has_id (parseInt id 10) job' = false) ->
  deleteJob id jobs =
    (Response 200 (Json (JObj {[ "message" := JStr "Job deleted successfully" ]})),
     delete p jobs).
Proof.
  intros Hp Hid Hfirst. unfold deleteJob.
  rewrite (findIndex_first _ jobs p job Hp Hid Hfirst).
  rewrite (proj2 (Z.eqb_neq _ _)) by lia. cbn [negb].
  rewrite splice_one by (by eapply lookup_lt_Some). done.
Qed.

(** What the unused helper computes. *)
Lemma getNextIdFromCollection_empty (number_to_string : number -> string) :
  getNextIdFromCollection number_to_string [] = PNum (Num 1).
Proof. done. Qed.

Lemma getNextIdFromCollection_last (number_to_string : number -> string)
    (jobs : list record) (lastRecord : record) :
  getNextIdFromCollection number_to_string (jobs ++ [lastRecord])
    = add_one number_to_string (prop_id lastRecord).
Proof.
  unfold getNextIdFromCollection. rewrite length_app. cbn [length].
  rewrite (proj2 (Z.eqb_neq _ _)) by lia.
  replace (Z.of_nat (length jobs + 1) - 1) with (Z.of_nat (length jobs)) by lia.
  rewrite index_of_nat. by rewrite list_lookup_middle.
Qed.

(** Beyond 2^53 the addition rounds: after a last record with id 2^53 the
    helper answers 2^53 again. *)
Example getNextIdFromCollection_rounds (number_to_string : number -> string) :
  getNextIdFromCollection number_to_string [Sample.applied; Sample.big]
    = PNum 9007199254740992%float.
Proof. reflexivity. Qed.

(** The steps are those of [patchJob]: same response, same registry. *)
Lemma patchJob_steps_result (id : string) (body : record) (jobs : list record) :
  snd (patchJob_steps id body jobs) = patchJob id body jobs.
Proof.
  unfold patchJob_steps, patchJob, after. cbn [snd].
  by destruct (negb (findIndex (has_id (parseInt id 10)) jobs =? -1)).
Qed.

End ServerFacts.

(** ** The properties of the job registry *)

Module JobRegistry.
Import Js Server Sample JsFacts ParseIntFacts ServerFacts.

#[local] Open Scope nat_scope.

(** Two create requests with the same id give a registry in which the id
    occurs twice: nothing keeps the ids apart. *)
Example duplicate_ids_reachable :
  snd (createJob offer (snd (createJob applied []))) = [applied; offer] /\
  count_id (Num 1) [applied; offer] = 2.
Proof. split; reflexivity. Qed.



(** C2, as amended.  When [p] is the first position of the registry whose
    record has the id of the request, the update route answers 200 with the
    shallow merge of the body over that record (a key of the body has the
    body's value, every other key has the record's old value, and there is
    no further key) and stores this merged record at position [p]. *)
Theorem C2_update_merges_first_match
    (jobs : list record) (id : string) (body : record) (p : nat) (job : record) :
  jobs !! p = Some job ->
  has_id (parseInt id 10) job = true ->
  (forall q job', q < p -> jobs !! q = Some job' ->
     has_id (parseInt id 10) job' = false) ->
  exists merged : gmap string json,
    patchJob id body jobs =
      (Response 200 (Json (JObj merged)), <[p := Obj merged]> jobs) /\
    (forall k v, own_props (Some body) !! k = Some v -> merged !! k = Some v) /\
    (forall k, own_props (Some body) !! k = None ->
       merged !! k = own_props (Some job) !! k).
Proof.
  intros Hp Hid Hfirst.
  exists (own_props (Some body) ∪ own_props (Some job)). split.
  - by apply patchJob_first.
  - split.
    + intros k v Hk. by apply lookup_union_Some_l.
    + intros k Hk. by apply lookup_union_r.
Qed.

Lemma C2_update_merges_first_match_witness :
  [applied] !! 0 = Some applied /\
  has_id (parseInt "1" 10) applied = true /\
  exists merged : gmap string json,
    patchJob "1" interviewing [applied] =
      (Response 200 (Json (JObj merged)), <[0 := Obj merged]> [applied]) /\
    (forall k v, own_props (Some interviewing) !! k = Some v ->
       merged !! k = Some v) /\
    (forall k, own_props (Some interviewing) !! k = None ->
       merged !! k = own_props (Some applied) !! k).
Proof.
  split; [reflexivity|]. split; [reflexivity|].
  apply (C2_update_merges_first_match [applied] "1" interviewing 0 applied).
  - reflexivity.
  - reflexivity.
  - intros q job' Hq. lia.
Defined.

(** C2 as first stated fails for a record behind another one with the same
    id: in [[{id:1,status:"Applied"}, {id:1,status:"Offer"}]] the record at
    position 1 has id 1, and the update of id 1 leaves position 1 as it was
    and answers with the merge over the record at position 0. *)
Lemma C2_counterexample_later_duplicate :
  [applied; offer] !! 1 = Some offer /\
  has_id (parseInt "1" 10) offer = true /\
  snd (patchJob "1" interviewing [applied; offer]) !! 1 = Some offer /\
  ~ (exists merged : gmap string json,
       patchJob "1" interviewing [applied; offer] =
         (Response 200 (Json (JObj merged)),
          <[1 := Obj merged]> [applied; offer]) /\
       (forall k v, own_props (Some interviewing) !! k = Some v ->
          merged !! k = Some v) /\
       (forall k, own_props (Some interviewing) !! k = None ->
          merged !! k = own_props (Some offer) !! k)).
Proof.
  split; [reflexivity|]. split; [reflexivity|]. split; [reflexivity|].
  intros (merged & Hrun & _).
  apply (f_equal (fun out =>
    match snd out !! 0 with
    | Some (Obj m) =>
        match m !! "status" with
        | Some (JStr s) => String.eqb s "Applied"
        | _ => false
        end
    | _ => false
    end)) in Hrun.
  vm_compute in Hrun. discriminate Hrun.
Qed.

(** C3.  The create route does not give the new record the next id: it
    appends the body as it is, so the new last record has the id of the
    body, or none, and [getNextIdFromCollection], which computes the id
    of the last record plus 1 (1 for an empty registry), is never applied.
    On [[{id:1,status:"Applied"}]] the helper answers 2 and the record that
    [POST /jobs] appends for the body [{title:"A"}] has no id; on the empty
    registry the helper answers 1 and the appended record has no id
    either. *)
Theorem C3_create_does_not_assign_next_id
    (number_to_string : number -> string) :
  (forall (jobs : list record) (body : record),
     prop_id <$> last (snd (createJob body jobs)) = Some (prop_id body)) /\
  getNextIdFromCollection number_to_string [applied] = PNum (Num 2) /\
  prop_id <$> last (snd (createJob titleA [applied])) = Some None /\
  getNextIdFromCollection number_to_string [] = PNum (Num 1) /\
  prop_id <$> last (snd (createJob titleA [])) = Some None.
Proof.
  split; [|repeat split; reflexivity].
  intros jobs body. cbn. unfold push. by rewrite last_snoc.
Qed.

(** C4, as amended.  When some record has the id of the request, the delete
    route answers 200 with the confirmation message and removes the first
    such record and nothing else: the registry gets shorter by exactly one
    and holds one record fewer with that id.  When exactly one record had
    the id, no record of the registry that a following list request
    returns has it. *)
Theorem C4_delete_removes_first_match (jobs : list record) (id : string) :
  Exists (fun job => has_id (parseInt id 10) job = true) jobs ->
  exists p : nat,
    deleteJob id jobs =
      (Response 200 (Json (JObj {[ "message" := JStr "Job deleted successfully" ]})),
       delete p jobs) /\
    (exists job, jobs !! p = Some job /\ has_id (parseInt id 10) job = true) /\
    (forall q job', q < p -> jobs !! q = Some job' ->
       has_id (parseInt id 10) job' = false) /\
    Datatypes.S (length (snd (deleteJob id jobs))) = length jobs /\
    Datatypes.S (count_id (parseInt id 10) (snd (deleteJob id jobs)))
      = count_id (parseInt id 10) jobs /\
    fst (listJobs (snd (deleteJob id jobs)))
      = Response 200 (Json (JArr (to_json <$> delete p jobs))) /\
    (count_id (parseInt id 10) jobs = 1 ->
     Forall (fun job => has_id (parseInt id 10) job = false) (delete p jobs)).
Proof.
  intros (job0 & Hin & Hid0)%Exists_exists.
  destruct (exists_first (has_id (parseInt id 10)) jobs job0 Hin Hid0)
    as (p & job & Hp & Hid & Hfirst).
  pose proof (deleteJob_first id jobs p job Hp Hid Hfirst) as Hrun.
  pose proof (count_id_delete _ jobs p job Hp Hid) as Hcount.
  exists p. rewrite Hrun. cbn [fst snd].
  split; [done|]. split; [by exists job|]. split; [done|].
  split.
  { rewrite length_delete by (by exists job).
    apply lookup_lt_Some in Hp. lia. }
  split; [done|]. split; [done|].
  intros Hone. apply Forall_forall, count_id_zero. lia.
Qed.

Lemma C4_delete_removes_first_match_witness :
  Exists (fun job => has_id (parseInt "1" 10) job = true) [applied] /\
  exists p : nat,
    deleteJob "1" [applied] =
      (Response 200 (Json (JObj {[ "message" := JStr "Job deleted successfully" ]})),
       delete p [applied]) /\
    (exists job, [applied] !! p = Some job /\ has_id (parseInt "1" 10) job = true) /\
    (forall q job', q < p -> [applied] !! q = Some job' ->
       has_id (parseInt "1" 10) job' = false) /\
    Datatypes.S (length (snd (deleteJob "1" [applied]))) = length [applied] /\
    Datatypes.S (count_id (parseInt "1" 10) (snd (deleteJob "1" [applied])))
      = count_id (parseInt "1" 10) [applied] /\
    fst (listJobs (snd (deleteJob "1" [applied])))
      = Response 200 (Json (JArr (to_json <$> delete p [applied]))) /\
    (count_id (parseInt "1" 10) [applied] = 1 ->
     Forall (fun job => has_id (parseInt "1" 10) job = false)
       (delete p [applied])).
Proof.
  assert (Exists (fun job => has_id (parseInt "1" 10) job = true) [applied])
    as H by (apply Exists_cons_hd; reflexivity).
  split; [exact H|]. exact (C4_delete_removes_first_match [applied] "1" H).
Defined.

(** C4 as first stated fails when two records share the id: from
    [[{id:1,status:"Applied"}, {id:1,status:"Offer"}]] the delete of id 1
    takes out one record, and the registry that is left, which a list
    request returns, still holds a record with id 1. *)
Lemma C4_counterexample_duplicate_id :
  Exists (fun job => has_id (parseInt "1" 10) job = true) [applied; offer] /\
  Datatypes.S (length (snd (deleteJob "1" [applied; offer])))
    = length [applied; offer] /\
  fst (listJobs (snd (deleteJob "1" [applied; offer])))
    = Response 200 (Json (JArr [to_json offer])) /\
  has_id (parseInt "1" 10) offer = true /\
  ~ Forall (fun job => has_id (parseInt "1" 10) job = false)
      (snd (deleteJob "1" [applied; offer])).
Proof.
  split; [apply Exists_cons_hd; reflexivity|].
  split; [reflexivity|]. split; [reflexivity|]. split; [reflexivity|].
  intros Hall. change (snd (deleteJob "1" [applied; offer])) with [offer] in Hall.
  apply Forall_cons in Hall as [Hoffer _]. vm_compute in Hoffer. discriminate.
Qed.

(** C5.  The create route appends the body, unchanged, as the new last
    record and answers 201 with that body; a following list request
    returns the old records followed by the body. *)
Theorem C5_create_appends_body (jobs : list record) (body : record) :
  createJob body jobs = (Response 201 (Json (to_json body)), jobs ++ [body]) /\
  last (snd (createJob body jobs)) = Some body /\
  take (length jobs) (snd (createJob body jobs)) = jobs /\
  fst (listJobs (snd (createJob body jobs)))
    = Response 200 (Json (JArr ((to_json <$> jobs) ++ [to_json body]))).
Proof.
  cbn. unfold push. split; [done|]. split; [by rewrite last_snoc|].
  split; [by rewrite take_app_length|].
  unfold send. by rewrite fmap_app.
Qed.

(** C6, as amended.  The update route does not check existence before it
    merges: it searches the index, then evaluates the spread, then tests
    the index.  When no record has the id of the request the index is -1
    and the spread reads [jobs[-1]], which is undefined and contributes no
    key; the test then fails, nothing is written, the route answers
    not-found and the registry is the same as before. *)
Theorem C6_update_absent_merges_but_keeps_registry
    (jobs : list record) (id : string) (body : record) :
  Forall (fun job => has_id (parseInt id 10) job = false) jobs ->
  fst (patchJob_steps id body jobs)
    = [FindIndex (-1); Merge None body; CheckExists false; Respond not_found] /\
  spread2 None (Some body) = Obj (own_props (Some body)) /\
  patchJob id body jobs = (not_found, jobs).
Proof.
  intros Habsent. rewrite Forall_forall in Habsent.
  split; [|split].
  - unfold patchJob_steps. rewrite (findIndex_none _ jobs Habsent). done.
  - unfold spread2, copy_props. cbn [own_props].
    by rewrite !(right_id_L ∅ (∪)).
  - by apply patchJob_absent.
Qed.

Lemma C6_update_absent_merges_but_keeps_registry_witness :
  Forall (fun job => has_id (parseInt "5" 10) job = false) [applied; twelve] /\
  fst (patchJob_steps "5" interviewing [applied; twelve])
    = [FindIndex (-1); Merge None interviewing; CheckExists false;
       Respond not_found] /\
  spread2 None (Some interviewing) = Obj (own_props (Some interviewing)) /\
  patchJob "5" interviewing [applied; twelve] = (not_found, [applied; twelve]).
Proof.
  assert (Forall (fun job => has_id (parseInt "5" 10) job = false)
            [applied; twelve]) as H by (repeat constructor).
  split; [exact H|].
  exact (C6_update_absent_merges_but_keeps_registry
           [applied; twelve] "5" interviewing H).
Defined.

(** C6 as first stated fails on the order: for the id 5, which no record of
    [[{id:1,..}, {id:12}]] has, the merge is the second step of the route
    and the existence check the third, so the merge is not preceded by a
    check. *)
Lemma C6_counterexample_merge_before_check :
  Forall (fun job => has_id (parseInt "5" 10) job = false) [applied; twelve] /\
  fst (patchJob_steps "5" interviewing [applied; twelve]) !! 1%nat
    = Some (Merge None interviewing) /\
  fst (patchJob_steps "5" interviewing [applied; twelve]) !! 2%nat
    = Some (CheckExists false) /\
  snd (patchJob_steps "5" interviewing [applied; twelve])
    = patchJob "5" interviewing [applied; twelve] /\
  ~ checks_before_merging
      (fst (patchJob_steps "5" interviewing [applied; twelve])).
Proof.
  split; [repeat constructor|]. split; [reflexivity|]. split; [reflexivity|].
  split; [reflexivity|].
  intros Hchecks.
  destruct (Hchecks 1%nat None interviewing eq_refl) as (j & found & Hj & Hstep).
  assert (j = 0%nat) as -> by lia. discriminate Hstep.
Qed.

(** C7, as amended.  Every response of every route has status 200 or 201
    or is the not-found response, so not-found is the only error.  A path
    identifier that, after leading white space and one optional sign, does
    not start with a decimal digit parses to [NaN], which no id equals, and
    the get, update and delete routes answer not-found and leave the
    registry as it was. *)
Theorem C7_no_leading_digit_not_found (jobs : list record) (req : request) :
  (status (fst (handle req jobs)) = 200%Z \/
   status (fst (handle req jobs)) = 201%Z \/
   fst (handle req jobs) = not_found) /\
  (forall id, path_id req = Some id -> leading_decimal_digit id = false ->
     parseInt id 0 = NaN /\ parseInt id 10 = NaN /\
     handle req jobs = (not_found, jobs)).
Proof.
  split.
  - destruct req as [| |id|body|id body|id]; cbn [handle].
    + by left.
    + by left.
    + unfold getJob. destruct (find _ jobs); [by left|by right; right].
    + by right; left.
    + unfold patchJob. destruct (negb _); [by left|by right; right].
    + unfold deleteJob. destruct (negb _); [by left|by right; right].
  - intros id Hid Hlead.
    assert (parseInt id 0 = NaN) as H0
      by (apply parseInt_no_leading_digit; [by left|done]).
    assert (parseInt id 10 = NaN) as H10
      by (apply parseInt_no_leading_digit; [by right|done]).
    split; [done|]. split; [done|].
    destruct req as [| |id'|body|id' body|id']; cbn in Hid; try done;
      injection Hid as ->; cbn [handle].
    + apply getJob_absent. intros job _. rewrite H0. apply has_id_NaN.
    + apply patchJob_absent. intros job _. rewrite H10. apply has_id_NaN.
    + apply deleteJob_absent. intros job _. rewrite H10. apply has_id_NaN.
Qed.

Lemma C7_no_leading_digit_not_found_witness :
  path_id (DELETE_job "abc") = Some "abc" /\
  leading_decimal_digit "abc" = false /\
  parseInt "abc" 0 = NaN /\ parseInt "abc" 10 = NaN /\
  handle (DELETE_job "abc") [applied] = (not_found, [applied]).
Proof.
  split; [reflexivity|]. split; [reflexivity|].
  exact (proj2 (C7_no_leading_digit_not_found [applied] (DELETE_job "abc"))
           "abc" eq_refl eq_refl).
Defined.

(** C7 as first stated fails for an identifier that starts with digits:
    ["12abc"] is not a numeral, yet it parses to 12, and on [[{id:12}]] the
    get route answers 200 with the record, the update route updates it and
    the delete route removes it. *)
Lemma C7_counterexample_numeric_prefix :
  all_decimal_digits "12abc" = false /\
  parseInt "12abc" 0 = Num 12 /\
  parseInt "12abc" 10 = Num 12 /\
  has_id (Num 12) twelve = true /\
  getJob "12abc" [twelve] = (Response 200 (Json (to_json twelve)), [twelve]) /\
  fst (patchJob "12abc" interviewing [twelve]) <> not_found /\
  deleteJob "12abc" [twelve]
    = (Response 200 (Json (JObj {[ "message" := JStr "Job deleted successfully" ]})),
       []).
Proof.
  repeat (split; [reflexivity|]). split; [|reflexivity].
  intros H. apply (f_equal status) in H. vm_compute in H. discriminate H.
Qed.

(** C8.  The list route always answers 200, and the payload is the whole
    registry: as many elements as there are records, the element at each
    position being the record stored at that position. *)
Theorem C8_list_returns_registry (jobs : list record) :
  handle GET_jobs jobs = (Response 200 (Json (JArr (to_json <$> jobs))), jobs) /\
  length (to_json <$> jobs) = length jobs /\
  (forall p, (to_json <$> jobs) !! p = to_json <$> jobs !! p) /\
  (forall a b, to_json a = to_json b -> a = b).
Proof.
  split; [done|]. split; [apply length_fmap|]. split.
  - intros p. apply list_lookup_fmap.
  - intros [ma|la] [mb|lb]; cbn; congruence.
Qed.

(** C9.  The list route and the get route leave the registry unchanged,
    whatever the identifier; a request after which the registry differs is
    a create, an update or a delete. *)
Theorem C9_reads_keep_registry
    (jobs : list record) (id : string) (req : request) :
  snd (listJobs jobs) = jobs /\
  snd (getJob id jobs) = jobs /\
  (snd (handle req jobs) <> jobs -> writes_jobs req = true).
Proof.
  split; [done|]. split.
  - unfold getJob. by destruct (find _ jobs).
  - destruct req as [| |id'|body|id' body|id']; cbn [handle writes_jobs];
      try done.
    unfold getJob. by destruct (find _ jobs).
Qed.

Lemma C9_reads_keep_registry_witness :
  snd (handle (POST_jobs titleA) []) <> [] /\
  snd (listJobs [applied]) = [applied] /\
  snd (getJob "1" [applied]) = [applied] /\
  writes_jobs (POST_jobs titleA) = true.
Proof.
  assert (snd (handle (POST_jobs titleA) []) <> []) as H
    by (intros E; discriminate E).
  pose proof (C9_reads_keep_registry [applied] "1" GET_jobs) as (Hl & Hg & _).
  pose proof (C9_reads_keep_registry [] "1" (POST_jobs titleA)) as (_ & _ & Hw).
  split; [exact H|]. split; [exact Hl|]. split; [exact Hg|]. exact (Hw H).
Defined.

(** C10, as amended.  The merge of the update route covers the key [id]:
    when [p] is the first position whose record has the id of the request
    and the body has a key [id] with the value [j], the route stores at
    position [p], and answers 200 with, a record whose id is [j]. *)
Theorem C10_update_rewrites_id
    (jobs : list record) (id : string) (body : record) (j : json)
    (p : nat) (job : record) :
  jobs !! p = Some job ->
  has_id (parseInt id 10) job = true ->
  (forall q job', q < p -> jobs !! q = Some job' ->
     has_id (parseInt id 10) job' = false) ->
  own_props (Some body) !! "id" = Some j ->
  exists merged : gmap string json,
    fst (patchJob id body jobs) = Response 200 (Json (JObj merged)) /\
    snd (patchJob id body jobs) !! p = Some (Obj merged) /\
    prop_id (Obj merged) = Some j.
Proof.
  intros Hp Hid Hfirst Hj.
  exists (own_props (Some body) ∪ own_props (Some job)).
  rewrite (patchJob_first id body jobs p job Hp Hid Hfirst). cbn [fst snd].
  split; [done|]. split.
  - apply list_lookup_insert_eq. by eapply lookup_lt_Some.
  - cbn [prop_id]. by apply lookup_union_Some_l.
Qed.

Lemma C10_update_rewrites_id_witness :
  [applied] !! 0 = Some applied /\
  has_id (parseInt "1" 10) applied = true /\
  own_props (Some renumber) !! "id" = Some (JNum 7) /\
  exists merged : gmap string json,
    fst (patchJob "1" renumber [applied]) = Response 200 (Json (JObj merged)) /\
    snd (patchJob "1" renumber [applied]) !! 0 = Some (Obj merged) /\
    prop_id (Obj merged) = Some (JNum 7).
Proof.
  split; [reflexivity|]. split; [reflexivity|]. split; [reflexivity|].
  apply (C10_update_rewrites_id [applied] "1" renumber (JNum 7) 0 applied).
  - reflexivity.
  - reflexivity.
  - intros q job' Hq. lia.
  - reflexivity.
Defined.

(** C10 as first stated fails for a record behind another one with the
    same id: in [[{id:1,status:"Applied"}, {id:1,status:"Offer"}]] the
    record at position 1 has id 1, and after the update of id 1 with the
    body [{id:7}] position 1 still holds that record, with id 1; the
    record with id 7 is at position 0. *)
Lemma C10_counterexample_later_duplicate :
  [applied; offer] !! 1 = Some offer /\
  has_id (parseInt "1" 10) offer = true /\
  own_props (Some renumber) !! "id" = Some (JNum 7) /\
  snd (patchJob "1" renumber [applied; offer]) !! 1 = Some offer /\
  prop_id offer = Some (JNum 1) /\
  (prop_id <$> snd (patchJob "1" renumber [applied; offer]) !! 0)
    = Some (Some (JNum 7)) /\
  ~ (exists merged : gmap string json,
       snd (patchJob "1" renumber [applied; offer]) !! 1 = Some (Obj merged) /\
       prop_id (Obj merged) = Some (JNum 7)).
Proof.
  repeat (split; [reflexivity|]).
  intros (merged & Hstored & Hid).
  assert (snd (patchJob "1" renumber [applied; offer]) !! 1 = Some offer)
    as Hsame by reflexivity.
  rewrite Hsame in Hstored. injection Hstored as <-.
  vm_compute in Hid. discriminate Hid.
Qed.

(** ** The scenarios of the specification *)

Example scenario_get_on_empty : getJob "1" [] = (not_found, []).
Proof. reflexivity. Qed.

Example scenario_create_then_list :
  fst (listJobs (snd (createJob titleA [])))
    = Response 200 (Json (JArr [JObj {[ "title" := JStr "A" ]}])).
Proof. reflexivity. Qed.

Example scenario_update_status :
  fst (patchJob "1" interviewing [applied])
    = Response 200
        (Json (JObj {[ "id" := JNum 1; "status" := JStr "Interviewing" ]})).
Proof. vm_compute. reflexivity. Qed.

End JobRegistry.

(** ** Decimal numerals and [parseInt] *)

Module NumeralFacts.
Import Js Chars ParseIntFacts.

Lemma digit_value_pretty_N_char (y : N) :
  (y < 10)%N -> digit_value (pretty_N_char y) = Some (Z.of_N y).
Proof.
  intros Hy.
  assert (y = 0 \/ y = 1 \/ y = 2 \/ y = 3 \/ y = 4 \/ y = 5 \/ y = 6
          \/ y = 7 \/ y = 8 \/ y = 9)%N as Hcases by lia.
  repeat (destruct Hcases as [-> | Hcases]; [reflexivity|]).
  by subst y.
Qed.

Lemma is_decimal_digit_pretty_N_char (y : N) :
  is_decimal_digit (pretty_N_char y) = true.
Proof.
  destruct y as [|p]; [done|].
  do 4 (destruct p as [p|p|]; try done).
Qed.

Lemma math_int_snoc (R : Z) (ds : list Z) (d : Z) :
  math_int R (ds ++ [d]) = math_int R ds * R + d.
Proof. unfold math_int. by rewrite foldl_app. Qed.

(** The digits that [pretty_N_go] puts in front of its accumulator are
    read back by [digits_prefix], and their value is the number. *)
Lemma digits_prefix_pretty_N_go (x : N) :
  exists ds : list Z,
    (forall s, digits_prefix 10 (pretty_N_go x s) = ds ++ digits_prefix 10 s) /\
    math_int 10 ds = Z.of_N x /\
    ((0 < x)%N -> ds <> []).
Proof.
  induction (N.lt_wf_0 x) as [x _ IH].
  destruct (decide (x = 0%N)) as [->|Hx].
  { exists []. split; [done|]. split; [done|]. lia. }
  assert (0 < x)%N as Hpos by lia.
  destruct (IH (x `div` 10)%N) as (ds & Hds & Hval & _).
  { by apply N.div_lt. }
  exists (ds ++ [Z.of_N (x `mod` 10)]). split; [|split].
  - intros s. rewrite pretty_N_go_step by done. rewrite Hds.
    cbn [digits_prefix].
    rewrite digit_value_pretty_N_char by (by apply N.mod_lt).
    rewrite (proj2 (Z.ltb_lt _ _)) by (pose proof (N.mod_lt x 10); lia).
    by rewrite <- app_assoc.
  - rewrite math_int_snoc, Hval.
    pose proof (N.div_mod x 10). lia.
  - intros _. by destruct ds.
Qed.

Lemma pretty_N_go_app (x : N) (s t : string) :
  pretty_N_go x s +:+ t = pretty_N_go x (s +:+ t).
Proof.
  revert s. induction (N.lt_wf_0 x) as [x _ IH]; intros s.
  destruct (decide (x = 0%N)) as [->|Hx]; [done|].
  rewrite (pretty_N_go_step x s), (pretty_N_go_step x (s +:+ t)) by lia.
  rewrite IH by (apply N.div_lt; lia). done.
Qed.

Lemma string_forall_pretty_N_go (x : N) (s : string) :
  string_forall is_decimal_digit s = true ->
  string_forall is_decimal_digit (pretty_N_go x s) = true.
Proof.
  revert s. induction (N.lt_wf_0 x) as [x _ IH]; intros s Hs.
  destruct (decide (x = 0%N)) as [->|Hx]; [done|].
  rewrite pretty_N_go_step by lia. apply IH; [apply N.div_lt; lia|].
  cbn [string_forall]. by rewrite is_decimal_digit_pretty_N_char, Hs.
Qed.

(** The numeral of a natural number: digits only, at least one, and
    [digits_prefix] reads the number back whatever follows. *)
Lemma pretty_N_digits (x : N) :
  exists (a : ascii) (s : string) (ds : list Z),
    pretty x = String a s /\
    string_forall is_decimal_digit (String a s) = true /\
    ds <> [] /\ math_int 10 ds = Z.of_N x /\
    (forall t, digits_prefix 10 (pretty x +:+ t) = ds ++ digits_prefix 10 t).
Proof.
  unfold pretty, pretty_N. destruct (decide (x = 0%N)) as [->|Hx].
  { exists "0"%char, "", [0]. repeat split; done. }
  destruct (digits_prefix_pretty_N_go x) as (ds & Hds & Hval & Hne).
  pose proof (string_forall_pretty_N_go x "" eq_refl) as Hall.
  assert (forall t, digits_prefix 10 (pretty_N_go x "" +:+ t)
                    = ds ++ digits_prefix 10 t) as Hread.
  { intros t. by rewrite pretty_N_go_app, Hds. }
  destruct (pretty_N_go x "") as [|a s] eqn:E.
  { specialize (Hds ""). rewrite E in Hds. cbn in Hds.
    rewrite app_nil_r in Hds. subst ds. destruct Hne; [lia|done]. }
  exists a, s, ds. split; [done|]. split; [done|].
  split; [apply Hne; lia|]. split; done.
Qed.

Lemma digit_not_white_space (a : ascii) :
  is_decimal_digit a = true -> is_white_space a = false.
Proof.
  unfold is_decimal_digit, is_white_space. generalize (code a). intros c.
  intros [H1%Z.leb_le H2%Z.leb_le]%andb_true_iff.
  rewrite (proj2 (Z.leb_gt c 13)) by lia.
  rewrite (proj2 (Z.eqb_neq c 32)) by lia.
  rewrite (proj2 (Z.eqb_neq c 160)) by lia.
  by rewrite andb_false_r.
Qed.

Lemma digit_not_sign (a : ascii) (s : string) :
  is_decimal_digit a = true -> split_sign (String a s) = (1, String a s).
Proof.
  unfold is_decimal_digit, split_sign. generalize (code a) at 1 2 3 4. intros c.
  intros [H1%Z.leb_le H2%Z.leb_le]%andb_true_iff.
  rewrite (proj2 (Z.eqb_neq c 45)) by lia.
  by rewrite (proj2 (Z.eqb_neq c 43)) by lia.
Qed.

Lemma digit_not_x (a : ascii) : is_decimal_digit a = true -> is_x a = false.
Proof.
  unfold is_decimal_digit, is_x. generalize (code a). intros c.
  intros [H1%Z.leb_le H2%Z.leb_le]%andb_true_iff.
  rewrite (proj2 (Z.eqb_neq c 120)) by lia.
  by rewrite (proj2 (Z.eqb_neq c 88)) by lia.
Qed.

(** No hexadecimal prefix on a numeral followed by anything but an x. *)
Lemma strip_hex_prefix_numeral (a : ascii) (s t : string) :
  string_forall is_decimal_digit (String a s) = true ->
  starts_with is_x t = false ->
  strip_hex_prefix (String a s +:+ t) = None.
Proof.
  intros Hall Ht. cbn in Hall. apply andb_true_iff in Hall as [_ Hs].
  assert (forall b u, is_x b = false ->
            strip_hex_prefix (String a (String b u)) = None) as Hnot.
  { intros b u Hb. cbn [strip_hex_prefix]. unfold is_x in Hb. rewrite Hb.
    by rewrite andb_false_r. }
  destruct s as [|b s]; cbn.
  - destruct t as [|b t]; [done|]. by apply Hnot.
  - apply Hnot. cbn in Hs. apply andb_true_iff in Hs as [Hb _].
    by apply digit_not_x.
Qed.

(** [parseInt] once the sign is split off and the digits are known. *)
Lemma parseInt_digits (s rest : string) (sign radix : Z) (ds : list Z) :
  split_sign (trim_start s) = (sign, rest) ->
  radix = 10 \/ (radix = 0 /\ strip_hex_prefix rest = None) ->
  digits_prefix 10 rest = ds -> ds <> [] ->
  parseInt s radix =
    if math_int 10 ds =? 0 then (if sign =? -1 then neg_zero else Num 0)
    else Num (sign * math_int 10 ds).
Proof.
  intros Hsplit Hradix Hds Hne. unfold parseInt. rewrite Hsplit.
  destruct Hradix as [-> | [-> Hx]].
  - cbn -[math_int digits_prefix Num]. rewrite Hds. by destruct ds.
  - cbn -[math_int digits_prefix strip_hex_prefix Num]. rewrite Hx, Hds.
    by destruct ds.
Qed.

(** The value of a numeral followed by a suffix that does not go on with a
    digit, for the radix 10 and, when the suffix does not start with an x,
    for no radix. *)
Lemma parseInt_pretty_N_suffix (x : N) (t : string) (radix : Z) :
  starts_with is_decimal_digit t = false ->
  radix = 10 \/ (radix = 0 /\ starts_with is_x t = false) ->
  parseInt (pretty x +:+ t) radix = Num (Z.of_N x) /\
  ((0 < x)%N -> parseInt ("-" +:+ pretty x +:+ t) radix = Num (- Z.of_N x)).
Proof.
  intros Ht Hradix.
  destruct (pretty_N_digits x) as (a & s & ds & Hnum & Hall & Hne & Hval & Hread).
  assert (is_decimal_digit a = true) as Ha.
  { cbn in Hall. by apply andb_true_iff in Hall as [-> _]. }
  assert (digits_prefix 10 (pretty x +:+ t) = ds) as Hds.
  { rewrite Hread, (digits_prefix_10_nil t Ht). apply app_nil_r. }
  assert (radix = 10 \/ (radix = 0 /\ strip_hex_prefix (pretty x +:+ t) = None))
    as Hradix'.
  { destruct Hradix as [-> | [-> Hx]]; [by left|right]. split; [done|].
    rewrite Hnum. by apply strip_hex_prefix_numeral. }
  split.
  - rewrite (parseInt_digits _ (pretty x +:+ t) 1 radix ds); try done.
    + rewrite Hval. destruct (Z.eqb_spec (Z.of_N x) 0) as [E|E].
      * by rewrite E.
      * f_equal; lia.
    + rewrite Hnum. change (String a s +:+ t) with (String a (s +:+ t)).
      cbn [trim_start].
      rewrite (digit_not_white_space a Ha). by apply digit_not_sign.
  - intros Hpos.
    rewrite (parseInt_digits _ (pretty x +:+ t) (-1) radix ds); try done.
    rewrite Hval. destruct (Z.eqb_spec (Z.of_N x) 0) as [E|E]; [lia|].
    f_equal; lia.
Qed.

(** Round trip: the decimal numeral of an integer, followed by anything
    that does not go on with a digit (nor, without a radix, with an x),
    parses to the number value of the integer. *)
Lemma parseInt_pretty_suffix (z : Z) (t : string) (radix : Z) :
  starts_with is_decimal_digit t = false ->
  radix = 10 \/ (radix = 0 /\ starts_with is_x t = false) ->
  parseInt (pretty z +:+ t) radix = Num z.
Proof.
  intros Ht Hradix. destruct z as [|p|p].
  - apply (parseInt_pretty_N_suffix 0 t radix Ht Hradix).
  - apply (parseInt_pretty_N_suffix (Npos p) t radix Ht Hradix).
  - by apply (parseInt_pretty_N_suffix (Npos p) t radix Ht Hradix).
Qed.

Lemma append_empty_r (s : string) : s +:+ "" = s.
Proof.
  induction s as [|a s IH]; [done|].
  change (String a s +:+ "") with (String a (s +:+ "")). by rewrite IH.
Qed.

Lemma parseInt_pretty (z : Z) (radix : Z) :
  radix = 0 \/ radix = 10 -> parseInt (pretty z) radix = Num z.
Proof.
  intros Hradix.
  replace (pretty z) with (pretty z +:+ "") by apply append_empty_r.
  apply parseInt_pretty_suffix; [done|]. destruct Hradix; [by right|by left].
Qed.

End NumeralFacts.

(** ** More facts about the handlers *)

Module HandlerFacts.
Import Js Server Session JsFacts ServerFacts.

#[local] Open Scope nat_scope.

Lemma find_first {A} (p : A -> bool) (l : list A) (i : nat) (x : A) :
  l !! i = Some x -> p x = true ->
  (forall j y, j < i -> l !! j = Some y -> p y = false) ->
  find p l = Some x.
Proof.
  intros Hi Hx Hfirst. rewrite find_list_find.
  replace (list_find (fun x => p x = true) l) with (Some (i, x)); [done|].
  symmetry. apply list_find_Some. split; [done|]. split; [done|].
  intros j y Hj Hlt. rewrite (Hfirst j y Hlt Hj). done.
Qed.

Lemma find_app {A} (p : A -> bool) (l1 l2 : list A) :
  find p (l1 ++ l2) =
    match find p l1 with
    | Some x => Some x
    | None => find p l2
    end.
Proof.
  induction l1 as [|x l1 IH]; [done|]. cbn. by destruct (p x).
Qed.

Lemma getJob_first (id : string) (jobs : list record) (p : nat) (job : record) :
  jobs !! p = Some job ->
  has_id (parseInt id 0) job = true ->
  (forall q job', q < p -> jobs !! q = Some job' ->
     has_id (parseInt id 0) job' = false) ->
  getJob id jobs = (Response 200 (Json (to_json job)), jobs).
Proof.
  intros Hp Hid Hfirst. unfold getJob.
  by rewrite (find_first _ jobs p job Hp Hid Hfirst).
Qed.

Lemma delete_app_lt {A} (l1 l2 : list A) (i : nat) :
  i < length l1 -> delete i (l1 ++ l2) = delete i l1 ++ l2.
Proof.
  revert i. induction l1 as [|x l1 IH]; intros [|i] Hi; cbn in Hi;
    [lia..|done|].
  change (delete (S i) ((x :: l1) ++ l2)) with (x :: delete i (l1 ++ l2)).
  rewrite IH by lia. done.
Qed.

(** The handlers see a record through its [id] only. *)
Lemma has_id_prop_id (n : number) (a b : record) :
  prop_id a = prop_id b -> has_id n a = has_id n b.
Proof. unfold has_id. by intros ->. Qed.

(** The same handler runs for two identifiers with the same value. *)
Lemma patchJob_parse (id id' : string) (body : record) (jobs : list record) :
  parseInt id 10 = parseInt id' 10 ->
  patchJob id body jobs = patchJob id' body jobs.
Proof. unfold patchJob. by intros ->. Qed.

Lemma deleteJob_parse (id id' : string) (jobs : list record) :
  parseInt id 10 = parseInt id' 10 -> deleteJob id jobs = deleteJob id' jobs.
Proof. unfold deleteJob. by intros ->. Qed.

Lemma getJob_parse (id id' : string) (jobs : list record) :
  parseInt id 0 = parseInt id' 0 -> getJob id jobs = getJob id' jobs.
Proof. unfold getJob. by intros ->. Qed.

(** Either no record has the id, or there is a first one that has it. *)
Lemma absent_or_first (n : number) (jobs : list record) :
  (forall job, job ∈ jobs -> has_id n job = false)
  \/ exists p job, jobs !! p = Some job /\ has_id n job = true
       /\ (forall q job', q < p -> jobs !! q = Some job' ->
             has_id n job' = false).
Proof.
  destruct (findIndex_found (has_id n) jobs) as [[_ H]|(p & job & _ & H)].
  - by left.
  - right. by exists p, job.
Qed.

(** When each route answers not-found. *)
Lemma getJob_not_found_iff (id : string) (jobs : list record) :
  fst (getJob id jobs) = not_found <->
    Forall (fun job => has_id (parseInt id 0) job = false) jobs.
Proof.
  destruct (absent_or_first (parseInt id 0) jobs)
    as [Habsent|(p & job & Hp & Hid & Hfirst)].
  - rewrite (getJob_absent id jobs Habsent). by rewrite Forall_forall.
  - rewrite (getJob_first id jobs p job Hp Hid Hfirst). cbn [fst].
    split; [done|]. intros Hall. rewrite Forall_forall in Hall.
    rewrite (Hall job) in Hid; [done|]. by eapply list_elem_of_lookup_2.
Qed.

Lemma patchJob_not_found_iff (id : string) (body : record) (jobs : list record) :
  fst (patchJob id body jobs) = not_found <->
    Forall (fun job => has_id (parseInt id 10) job = false) jobs.
Proof.
  destruct (absent_or_first (parseInt id 10) jobs)
    as [Habsent|(p & job & Hp & Hid & Hfirst)].
  - rewrite (patchJob_absent id body jobs Habsent). by rewrite Forall_forall.
  - rewrite (patchJob_first id body jobs p job Hp Hid Hfirst). cbn [fst].
    split; [done|]. intros Hall. rewrite Forall_forall in Hall.
    rewrite (Hall job) in Hid; [done|]. by eapply list_elem_of_lookup_2.
Qed.

Lemma deleteJob_not_found_iff (id : string) (jobs : list record) :
  fst (deleteJob id jobs) = not_found <->
    Forall (fun job => has_id (parseInt id 10) job = false) jobs.
Proof.
  destruct (absent_or_first (parseInt id 10) jobs)
    as [Habsent|(p & job & Hp & Hid & Hfirst)].
  - rewrite (deleteJob_absent id jobs Habsent). by rewrite Forall_forall.
  - rewrite (deleteJob_first id jobs p job Hp Hid Hfirst). cbn [fst].
    split; [done|]. intros Hall. rewrite Forall_forall in Hall.
    rewrite (Hall job) in Hid; [done|]. by eapply list_elem_of_lookup_2.
Qed.

Section Filter.
Context {A : Type} (P : A -> Prop) `{!forall x, Decision (P x)}.

Lemma filter_all (l : list A) : Forall P l -> filter P l = l.
Proof.
  induction 1 as [|x l Hx _ IH]; [done|].
  rewrite filter_cons_True by done. by rewrite IH.
Qed.

Lemma filter_delete_other (l : list A) (i : nat) (x : A) :
  l !! i = Some x -> ~ P x -> filter P (delete i l) = filter P l.
Proof.
  revert i. induction l as [|y l IH]; intros [|i] Hi Hx; try done.
  - injection Hi as ->. cbn [delete list_delete]. by rewrite filter_cons_False.
  - change (delete (S i) (y :: l)) with (y :: delete i l).
    rewrite !filter_cons. by rewrite (IH i Hi Hx).
Qed.

Lemma length_filter_delete_le (l : list A) (i : nat) :
  length (filter P (delete i l)) <= length (filter P l).
Proof.
  revert i. induction l as [|y l IH]; intros [|i]; try done.
  - cbn [delete list_delete]. rewrite filter_cons.
    destruct (decide (P y)); cbn [length]; lia.
  - change (delete (S i) (y :: l)) with (y :: delete i l).
    rewrite !filter_cons. specialize (IH i).
    destruct (decide (P y)); cbn [length]; lia.
Qed.

Lemma length_filter_insert (l : list A) (i : nat) (x y : A) :
  l !! i = Some x -> (P x <-> P y) ->
  length (filter P (<[i := y]> l)) = length (filter P l).
Proof.
  revert i. induction l as [|z l IH]; intros [|i] Hi Hxy; try done.
  - injection Hi as ->. cbn [insert list_insert]. rewrite !filter_cons.
    destruct (decide (P y)), (decide (P x)); tauto || done.
  - change (<[S i := y]> (z :: l)) with (z :: <[i := y]> l).
    rewrite !filter_cons.
    destruct (decide (P z)); cbn [length]; by rewrite (IH i Hi Hxy).
Qed.

End Filter.

Lemma count_id_absent (n : number) (jobs : list record) :
  (forall job, job ∈ jobs -> has_id n job = false) -> count_id n jobs = 0.
Proof.
  intros H. unfold count_id.
  induction jobs as [|job jobs IH]; [done|].
  rewrite filter_cons_False.
  - apply IH. intros job' Hin. apply H. by right.
  - rewrite (H job); [done|by left].
Qed.

(** Merging the same properties a second time adds nothing. *)
Lemma union_twice (a b : gmap string json) : a ∪ (a ∪ b) = a ∪ b.
Proof.
  apply map_eq. intros k. rewrite !lookup_union.
  by destruct (a !! k), (b !! k).
Qed.

(** An update whose body has no key [id] leaves the id of the record. *)
Lemma merged_keeps_id (body job : record) :
  own_props (Some body) !! "id" = None ->
  prop_id (Obj (own_props (Some body) ∪ own_props (Some job))) = prop_id job.
Proof.
  intros Hbody. cbn [prop_id]. rewrite lookup_union_r by done.
  destruct job as [m|l]; [done|]. cbn [own_props prop_id].
  apply not_elem_of_list_to_map_1. intros Hin.
  apply list_elem_of_fmap in Hin as ([k v] & Hk & Hkv).
  apply elem_of_lookup_imap in Hkv as (i & v' & [= -> ->] & _).
  cbn in Hk. revert Hk. unfold pretty, pretty_nat, pretty, pretty_N.
  destruct (decide (N.of_nat i = 0%N)); [done|].
  intros Hk.
  pose proof (NumeralFacts.string_forall_pretty_N_go (N.of_nat i) "" eq_refl)
    as Hall.
  rewrite <- Hk in Hall. done.
Qed.

(** What one request does to the number of records with a given id. *)
Lemma count_id_step (n : number) (req : request) (jobs : list record) :
  keeps_ids req = true ->
  count_id n (snd (handle req jobs)) <= count_id n jobs.
Proof.
  destruct req as [| |id|body|id body|id]; cbn [keeps_ids handle];
    intros Hkeep; try done.
  - unfold getJob. by destruct (find _ jobs).
  - apply bool_decide_eq_true in Hkeep.
    destruct (absent_or_first (parseInt id 10) jobs)
      as [Habsent|(p & job & Hp & Hid & Hfirst)].
    + by rewrite (patchJob_absent id body jobs Habsent).
    + rewrite (patchJob_first id body jobs p job Hp Hid Hfirst). cbn [snd].
      unfold count_id. rewrite (length_filter_insert _ jobs p job); [done..|].
      by rewrite (has_id_prop_id n _ job (merged_keeps_id body job Hkeep)).
  - destruct (absent_or_first (parseInt id 10) jobs)
      as [Habsent|(p & job & Hp & Hid & Hfirst)].
    + by rewrite (deleteJob_absent id jobs Habsent).
    + rewrite (deleteJob_first id jobs p job Hp Hid Hfirst). cbn [snd].
      apply length_filter_delete_le.
Qed.

(** Deleting an id as often as it occurs removes every record with it. *)
Lemma serve_deletes (id : string) (k : nat) (jobs : list record) :
  count_id (parseInt id 10) jobs = k ->
  serve (replicate k (DELETE_job id)) jobs
    = filter (fun job => has_id (parseInt id 10) job = false) jobs.
Proof.
  revert jobs. induction k as [|k IH]; intros jobs Hk.
  - cbn. symmetry. apply filter_all, Forall_forall. by apply count_id_zero.
  - destruct (absent_or_first (parseInt id 10) jobs)
      as [Habsent|(p & job & Hp & Hid & Hfirst)].
    { rewrite (count_id_absent _ jobs Habsent) in Hk. done. }
    cbn [replicate serve foldl handle].
    rewrite (deleteJob_first id jobs p job Hp Hid Hfirst). cbn [snd].
    change (foldl _ (delete p jobs) (replicate k (DELETE_job id)))
      with (serve (replicate k (DELETE_job id)) (delete p jobs)).
    rewrite IH.
    + apply (filter_delete_other _ jobs p job Hp). by rewrite Hid.
    + pose proof (count_id_delete _ jobs p job Hp Hid). lia.
Qed.

Lemma count_id_serve (n : number) (reqs : list request) (jobs : list record) :
  Forall (fun req => keeps_ids req = true) reqs ->
  count_id n (serve reqs jobs) <= count_id n jobs.
Proof.
  intros Hreqs. revert jobs.
  induction Hreqs as [|req reqs Hreq _ IH]; intros jobs; [done|].
  cbn [serve foldl].
  change (foldl _ ?s reqs) with (serve reqs s).
  etrans; [apply IH|]. by apply count_id_step.
Qed.

End HandlerFacts.

(** ** Further behaviour of the routes *)

Module Routes.
Import Js Server Session Sample Chars.
Import JsFacts ParseIntFacts ServerFacts NumeralFacts HandlerFacts.

#[local] Open Scope nat_scope.

(** X1.  The get route answers 200 with the first record of the registry
    whose id is the one of the request, and leaves the registry alone. *)
Theorem get_returns_first_match
    (jobs : list record) (id : string) (p : nat) (job : record) :
  jobs !! p = Some job ->
  has_id (parseInt id 0) job = true ->
  (forall q job', q < p -> jobs !! q = Some job' ->
     has_id (parseInt id 0) job' = false) ->
  getJob id jobs = (Response 200 (Json (to_json job)), jobs).
Proof. apply getJob_first. Qed.

Lemma get_returns_first_match_witness :
  [twelve; applied; offer] !! 1 = Some applied /\
  has_id (parseInt "1" 0) applied = true /\
  getJob "1" [twelve; applied; offer]
    = (Response 200 (Json (to_json applied)), [twelve; applied; offer]).
Proof.
  split; [reflexivity|]. split; [reflexivity|].
  apply (get_returns_first_match [twelve; applied; offer] "1" 1 applied).
  - reflexivity.
  - reflexivity.
  - intros q job' Hq Hjob. assert (q = 0) as -> by lia.
    injection Hjob as <-. reflexivity.
Defined.

(** X2.  Each of the get, update and delete routes answers not-found
    exactly when no record has the id of the request. *)
Theorem not_found_iff_absent (jobs : list record) (id : string) (body : record) :
  (fst (getJob id jobs) = not_found <->
     Forall (fun job => has_id (parseInt id 0) job = false) jobs) /\
  (fst (patchJob id body jobs) = not_found <->
     Forall (fun job => has_id (parseInt id 10) job = false) jobs) /\
  (fst (deleteJob id jobs) = not_found <->
     Forall (fun job => has_id (parseInt id 10) job = false) jobs).
Proof.
  split; [apply getJob_not_found_iff|].
  split; [apply patchJob_not_found_iff|apply deleteJob_not_found_iff].
Qed.

(** X3.  The length of the registry after a request: one more after a
    create, one less after a delete answered 200, the same in every other
    case. *)
Theorem length_after_request (jobs : list record) (req : request) :
  match req with
  | POST_jobs _ => length (snd (handle req jobs)) = S (length jobs)
  | DELETE_job _ =>
      if bool_decide (status (fst (handle req jobs)) = 200%Z)
      then S (length (snd (handle req jobs))) = length jobs
      else length (snd (handle req jobs)) = length jobs
  | _ => length (snd (handle req jobs)) = length jobs
  end.
Proof.
  destruct req as [| |id|body|id body|id]; cbn [handle]; try done.
  - unfold getJob. by destruct (find _ jobs).
  - cbn. unfold push. rewrite length_app. cbn. lia.
  - destruct (absent_or_first (parseInt id 10) jobs)
      as [Habsent|(p & job & Hp & Hid & Hfirst)].
    + by rewrite (patchJob_absent id body jobs Habsent).
    + rewrite (patchJob_first id body jobs p job Hp Hid Hfirst).
      apply length_insert.
  - destruct (absent_or_first (parseInt id 10) jobs)
      as [Habsent|(p & job & Hp & Hid & Hfirst)].
    + by rewrite (deleteJob_absent id jobs Habsent).
    + rewrite (deleteJob_first id jobs p job Hp Hid Hfirst).
      cbn [fst snd status]. rewrite bool_decide_eq_true_2 by done.
      rewrite length_delete by (by exists job).
      apply lookup_lt_Some in Hp. lia.
Qed.

(** X4.  A request answered with status 404 has changed nothing. *)
Theorem status_404_keeps_registry (jobs : list record) (req : request) :
  status (fst (handle req jobs)) = 404%Z -> snd (handle req jobs) = jobs.
Proof.
  destruct req as [| |id|body|id body|id]; cbn [handle]; try done.
  - unfold getJob. by destruct (find _ jobs).
  - destruct (absent_or_first (parseInt id 10) jobs)
      as [Habsent|(p & job & Hp & Hid & Hfirst)].
    + by rewrite (patchJob_absent id body jobs Habsent).
    + by rewrite (patchJob_first id body jobs p job Hp Hid Hfirst).
  - destruct (absent_or_first (parseInt id 10) jobs)
      as [Habsent|(p & job & Hp & Hid & Hfirst)].
    + by rewrite (deleteJob_absent id jobs Habsent).
    + by rewrite (deleteJob_first id jobs p job Hp Hid Hfirst).
Qed.

Lemma status_404_keeps_registry_witness :
  status (fst (handle (DELETE_job "9") [applied; twelve])) = 404%Z /\
  snd (handle (DELETE_job "9") [applied; twelve]) = [applied; twelve].
Proof.
  split; [reflexivity|].
  apply (status_404_keeps_registry [applied; twelve] (DELETE_job "9")).
  reflexivity.
Defined.

(** X5.  An update never changes the length of the registry, and the only
    position it can change is that of the first record with the id of the
    request. *)
Theorem update_frame
    (jobs : list record) (id : string) (body : record) (q : nat) :
  length (snd (patchJob id body jobs)) = length jobs /\
  (snd (patchJob id body jobs) !! q = jobs !! q \/
   exists job, jobs !! q = Some job /\ has_id (parseInt id 10) job = true /\
     (forall q' job', q' < q -> jobs !! q' = Some job' ->
        has_id (parseInt id 10) job' = false)).
Proof.
  destruct (absent_or_first (parseInt id 10) jobs)
    as [Habsent|(p & job & Hp & Hid & Hfirst)].
  - rewrite (patchJob_absent id body jobs Habsent). split; [done|by left].
  - rewrite (patchJob_first id body jobs p job Hp Hid Hfirst). cbn [snd].
    split; [apply length_insert|].
    destruct (decide (p = q)) as [<-|Hne].
    + right. by exists job.
    + left. by apply list_lookup_insert_ne.
Qed.

(** X6.  An update whose body has no key [id] is idempotent: sent a second
    time it gives the same response and the same registry. *)
Theorem update_idempotent (jobs : list record) (id : string) (body : record) :
  own_props (Some body) !! "id" = None ->
  patchJob id body (snd (patchJob id body jobs)) = patchJob id body jobs.
Proof.
  intros Hbody.
  destruct (absent_or_first (parseInt id 10) jobs)
    as [Habsent|(p & job & Hp & Hid & Hfirst)].
  - rewrite (patchJob_absent id body jobs Habsent). cbn [snd].
    apply (patchJob_absent id body jobs Habsent).
  - rewrite (patchJob_first id body jobs p job Hp Hid Hfirst). cbn [snd].
    set (merged := own_props (Some body) ∪ own_props (Some job)).
    assert (p < length jobs) as Hlt by (by eapply lookup_lt_Some).
    rewrite (patchJob_first id body _ p (Obj merged)).
    + cbn [own_props]. unfold merged.
      rewrite union_twice. by rewrite list_insert_insert_eq.
    + by apply list_lookup_insert_eq.
    + rewrite <- Hid. apply has_id_prop_id. by apply merged_keeps_id.
    + intros q job' Hq. rewrite list_lookup_insert_ne by lia. by apply Hfirst.
Qed.

Lemma update_idempotent_witness :
  own_props (Some interviewing) !! "id" = None /\
  patchJob "1" interviewing (snd (patchJob "1" interviewing [applied; offer]))
    = patchJob "1" interviewing [applied; offer].
Proof.
  split; [reflexivity|].
  apply (update_idempotent [applied; offer] "1" interviewing). reflexivity.
Defined.

(** X7.  After an update whose body has no key [id], a get with the same
    identifier answers what the update answered (for an identifier that the
    two routes parse alike). *)
Theorem get_after_update (jobs : list record) (id : string) (body : record) :
  own_props (Some body) !! "id" = None ->
  parseInt id 0 = parseInt id 10 ->
  fst (getJob id (snd (patchJob id body jobs))) = fst (patchJob id body jobs).
Proof.
  intros Hbody Hparse.
  destruct (absent_or_first (parseInt id 10) jobs)
    as [Habsent|(p & job & Hp & Hid & Hfirst)].
  - rewrite (patchJob_absent id body jobs Habsent). cbn [fst snd].
    rewrite getJob_absent; [done|]. by rewrite Hparse.
  - rewrite (patchJob_first id body jobs p job Hp Hid Hfirst). cbn [fst snd].
    set (merged := own_props (Some body) ∪ own_props (Some job)).
    assert (p < length jobs) as Hlt by (by eapply lookup_lt_Some).
    rewrite (getJob_first id _ p (Obj merged)); [done|..].
    + by apply list_lookup_insert_eq.
    + rewrite Hparse, <- Hid. apply has_id_prop_id. by apply merged_keeps_id.
    + intros q job' Hq. rewrite list_lookup_insert_ne by lia.
      rewrite Hparse. by apply Hfirst.
Qed.

Lemma get_after_update_witness :
  own_props (Some interviewing) !! "id" = None /\
  parseInt "1" 0 = parseInt "1" 10 /\
  fst (getJob "1" (snd (patchJob "1" interviewing [twelve; applied])))
    = fst (patchJob "1" interviewing [twelve; applied]).
Proof.
  split; [reflexivity|]. split; [reflexivity|].
  apply (get_after_update [twelve; applied] "1" interviewing); reflexivity.
Defined.

(** X8.  Create, then get: when no record of the registry has the id of
    the request and the created body has it, the get route answers 200
    with the body. *)
Theorem get_after_create (jobs : list record) (body : record) (id : string) :
  Forall (fun job => has_id (parseInt id 0) job = false) jobs ->
  has_id (parseInt id 0) body = true ->
  fst (getJob id (snd (createJob body jobs)))
    = Response 200 (Json (to_json body)).
Proof.
  intros Hfresh Hbody. rewrite Forall_forall in Hfresh.
  cbn [createJob snd]. unfold push, getJob. rewrite find_app.
  rewrite (find_none _ jobs Hfresh). cbn [find]. by rewrite Hbody.
Qed.

Lemma get_after_create_witness :
  Forall (fun job => has_id (parseInt "12" 0) job = false) [applied] /\
  has_id (parseInt "12" 0) twelve = true /\
  fst (getJob "12" (snd (createJob twelve [applied])))
    = Response 200 (Json (to_json twelve)).
Proof.
  assert (Forall (fun job => has_id (parseInt "12" 0) job = false) [applied])
    as H by (repeat constructor).
  split; [exact H|]. split; [reflexivity|].
  exact (get_after_create [applied] twelve "12" H eq_refl).
Defined.

(** X9.  A record created with an id that is already in the registry is
    out of reach: the get route goes on answering with the older record,
    an update merges into the older record, at its position, and leaves
    the new record as it is, and a delete removes the older record. *)
Theorem create_with_used_id_is_shadowed
    (jobs : list record) (body patch : record) (id : string)
    (p : nat) (job : record) :
  jobs !! p = Some job ->
  has_id (parseInt id 10) job = true ->
  (forall q job', q < p -> jobs !! q = Some job' ->
     has_id (parseInt id 10) job' = false) ->
  parseInt id 0 = parseInt id 10 ->
  getJob id (snd (createJob body jobs))
    = (Response 200 (Json (to_json job)), jobs ++ [body]) /\
  patchJob id patch (snd (createJob body jobs))
    = (Response 200
         (Json (JObj (own_props (Some patch) ∪ own_props (Some job)))),
       <[p := Obj (own_props (Some patch) ∪ own_props (Some job))]> jobs
         ++ [body]) /\
  snd (deleteJob id (snd (createJob body jobs))) = delete p jobs ++ [body].
Proof.
  intros Hp Hid Hfirst Hparse. cbn [createJob snd]. unfold push.
  assert (p < length jobs) as Hlt by (by eapply lookup_lt_Some).
  assert ((jobs ++ [body]) !! p = Some job) as Hp'
    by (by rewrite lookup_app_l).
  assert (forall q job', q < p -> (jobs ++ [body]) !! q = Some job' ->
            has_id (parseInt id 10) job' = false) as Hfirst'.
  { intros q job' Hq. rewrite lookup_app_l by lia. by apply Hfirst. }
  split; [|split].
  - apply (getJob_first id _ p job Hp'); rewrite Hparse; done.
  - rewrite (patchJob_first id patch _ p job Hp' Hid Hfirst').
    by rewrite insert_app_l.
  - rewrite (deleteJob_first id _ p job Hp' Hid Hfirst'). cbn [snd].
    by rewrite delete_app_lt.
Qed.

Lemma create_with_used_id_is_shadowed_witness :
  [applied] !! 0 = Some applied /\
  has_id (parseInt "1" 10) applied = true /\
  parseInt "1" 0 = parseInt "1" 10 /\
  getJob "1" (snd (createJob offer [applied]))
    = (Response 200 (Json (to_json applied)), [applied] ++ [offer]) /\
  patchJob "1" interviewing (snd (createJob offer [applied]))
    = (Response 200
         (Json (JObj (own_props (Some interviewing) ∪ own_props (Some applied)))),
       <[0 := Obj (own_props (Some interviewing) ∪ own_props (Some applied))]>
         [applied] ++ [offer]) /\
  snd (deleteJob "1" (snd (createJob offer [applied])))
    = delete 0 [applied] ++ [offer].
Proof.
  split; [reflexivity|]. split; [reflexivity|]. split; [reflexivity|].
  apply (create_with_used_id_is_shadowed
           [applied] offer interviewing "1" 0 applied).
  - reflexivity.
  - reflexivity.
  - intros q job' Hq. lia.
  - reflexivity.
Defined.

(** X10.  Create, then delete: when no record of the registry has the id
    of the request and the created body has it, deleting that id gives
    back the registry as it was before the create. *)
Theorem delete_after_create (jobs : list record) (body : record) (id : string) :
  Forall (fun job => has_id (parseInt id 10) job = false) jobs ->
  has_id (parseInt id 10) body = true ->
  snd (deleteJob id (snd (createJob body jobs))) = jobs.
Proof.
  intros Hfresh Hbody. rewrite Forall_forall in Hfresh.
  cbn [createJob snd]. unfold push.
  rewrite (deleteJob_first id _ (length jobs) body).
  - cbn [snd]. rewrite (delete_middle jobs [] body). apply app_nil_r.
  - by rewrite list_lookup_middle.
  - done.
  - intros q job' Hq. rewrite lookup_app_l by done. intros Hjob.
    apply Hfresh. by eapply list_elem_of_lookup_2.
Qed.

Lemma delete_after_create_witness :
  Forall (fun job => has_id (parseInt "12" 10) job = false) [applied] /\
  has_id (parseInt "12" 10) twelve = true /\
  snd (deleteJob "12" (snd (createJob twelve [applied]))) = [applied].
Proof.
  assert (Forall (fun job => has_id (parseInt "12" 10) job = false) [applied])
    as H by (repeat constructor).
  split; [exact H|]. split; [reflexivity|].
  exact (delete_after_create [applied] twelve "12" H eq_refl).
Defined.

(** X11.  A delete leaves the records with any other id as they were, in
    the same order. *)
Theorem delete_frame (jobs : list record) (id : string) :
  filter (fun job => has_id (parseInt id 10) job = false)
    (snd (deleteJob id jobs))
  = filter (fun job => has_id (parseInt id 10) job = false) jobs.
Proof.
  destruct (absent_or_first (parseInt id 10) jobs)
    as [Habsent|(p & job & Hp & Hid & Hfirst)].
  - by rewrite (deleteJob_absent id jobs Habsent).
  - rewrite (deleteJob_first id jobs p job Hp Hid Hfirst). cbn [snd].
    apply (filter_delete_other _ jobs p job Hp). by rewrite Hid.
Qed.

(** X12.  Sending the delete of an id as many times as the id occurs
    removes exactly the records with that id; one more delete is answered
    not-found. *)
Theorem repeated_delete_removes_all (jobs : list record) (id : string) :
  serve (replicate (count_id (parseInt id 10) jobs) (DELETE_job id)) jobs
    = filter (fun job => has_id (parseInt id 10) job = false) jobs /\
  deleteJob id
    (serve (replicate (count_id (parseInt id 10) jobs) (DELETE_job id)) jobs)
    = (not_found, filter (fun job => has_id (parseInt id 10) job = false) jobs).
Proof.
  rewrite (serve_deletes id _ jobs eq_refl). split; [done|].
  apply deleteJob_absent. intros job Hjob.
  by apply list_elem_of_filter in Hjob as [Hid _].
Qed.

(** X13.  No id becomes more frequent through requests other than creates
    and updates that carry a key [id]: for every id, the registry after
    such requests holds at most as many records with it as before.  In
    particular ids that are unique stay unique. *)
Theorem ids_do_not_multiply
    (reqs : list request) (jobs : list record) (n : number) :
  Forall (fun req => keeps_ids req = true) reqs ->
  count_id n (serve reqs jobs) <= count_id n jobs.
Proof. apply count_id_serve. Qed.

Lemma ids_do_not_multiply_witness :
  Forall (fun req => keeps_ids req = true)
    [PATCH_job "1" interviewing; GET_job "1"; DELETE_job "12"] /\
  count_id (Num 1)
    (serve [PATCH_job "1" interviewing; GET_job "1"; DELETE_job "12"]
       [applied; twelve])
  <= count_id (Num 1) [applied; twelve].
Proof.
  assert (Forall (fun req => keeps_ids req = true)
            [PATCH_job "1" interviewing; GET_job "1"; DELETE_job "12"])
    as H by (repeat constructor).
  split; [exact H|].
  exact (ids_do_not_multiply _ [applied; twelve] (Num 1) H).
Defined.

(** X14.  The decimal numeral of an integer [z] parses, with radix 10 and
    without, to the number value of [z] (the double nearest to [z]), so
    GET and DELETE [/jobs/<numeral of z>] answer with, respectively
    remove, the first record whose id is equal to that number. *)
Theorem numeral_addresses_id
    (jobs : list record) (z : Z) (p : nat) (job : record) :
  jobs !! p = Some job ->
  has_id (Num z) job = true ->
  (forall q job', q < p -> jobs !! q = Some job' ->
     has_id (Num z) job' = false) ->
  parseInt (pretty z) 0 = Num z /\
  parseInt (pretty z) 10 = Num z /\
  getJob (pretty z) jobs = (Response 200 (Json (to_json job)), jobs) /\
  snd (deleteJob (pretty z) jobs) = delete p jobs.
Proof.
  intros Hp Hid Hfirst.
  pose proof (parseInt_pretty z 0 (or_introl eq_refl)) as H0.
  pose proof (parseInt_pretty z 10 (or_intror eq_refl)) as H10.
  split; [done|]. split; [done|]. split.
  - apply (getJob_first _ jobs p job); rewrite ?H0; done.
  - rewrite (deleteJob_first _ jobs p job); rewrite ?H10; done.
Qed.

Lemma numeral_addresses_id_witness :
  [applied; twelve] !! 1 = Some twelve /\
  has_id (Num 12) twelve = true /\
  parseInt (pretty 12%Z) 0 = Num 12 /\
  parseInt (pretty 12%Z) 10 = Num 12 /\
  getJob (pretty 12%Z) [applied; twelve]
    = (Response 200 (Json (to_json twelve)), [applied; twelve]) /\
  snd (deleteJob (pretty 12%Z) [applied; twelve]) = delete 1 [applied; twelve].
Proof.
  split; [reflexivity|]. split; [reflexivity|].
  apply (numeral_addresses_id [applied; twelve] 12 1 twelve).
  - reflexivity.
  - reflexivity.
  - intros q job' Hq Hjob. assert (q = 0) as -> by lia.
    injection Hjob as <-. reflexivity.
Defined.

(** X15.  What follows the numeral in an identifier is ignored as soon as
    it does not go on with a digit: update and delete treat
    [<numeral><rest>] as [<numeral>], and so does get unless the rest
    starts with an x. *)
Theorem trailing_characters_ignored
    (jobs : list record) (z : Z) (t : string) (body : record) :
  starts_with is_decimal_digit t = false ->
  patchJob (pretty z +:+ t) body jobs = patchJob (pretty z) body jobs /\
  deleteJob (pretty z +:+ t) jobs = deleteJob (pretty z) jobs /\
  (starts_with is_x t = false ->
   getJob (pretty z +:+ t) jobs = getJob (pretty z) jobs).
Proof.
  intros Ht.
  assert (parseInt (pretty z +:+ t) 10 = parseInt (pretty z) 10) as H10.
  { rewrite parseInt_pretty by (by right).
    apply parseInt_pretty_suffix; [done|by left]. }
  split; [by apply patchJob_parse|]. split; [by apply deleteJob_parse|].
  intros Hx. apply getJob_parse.
  rewrite parseInt_pretty by (by left).
  apply parseInt_pretty_suffix; [done|by right].
Qed.

Lemma trailing_characters_ignored_witness :
  starts_with is_decimal_digit ".5e3" = false /\
  starts_with is_x ".5e3" = false /\
  patchJob (pretty 12%Z +:+ ".5e3") interviewing [twelve]
    = patchJob (pretty 12%Z) interviewing [twelve] /\
  deleteJob (pretty 12%Z +:+ ".5e3") [twelve]
    = deleteJob (pretty 12%Z) [twelve] /\
  getJob (pretty 12%Z +:+ ".5e3") [twelve] = getJob (pretty 12%Z) [twelve].
Proof.
  pose proof (trailing_characters_ignored [twelve] 12 ".5e3" interviewing
                eq_refl) as (Hp & Hd & Hg).
  split; [reflexivity|]. split; [reflexivity|].
  split; [exact Hp|]. split; [exact Hd|]. exact (Hg eq_refl).
Defined.

(** X16.  The get route parses the identifier without a radix, update and
    delete with radix 10.  For an identifier without a 0x prefix the two
    give the same number, so the three routes look for the same id. *)
Theorem routes_agree_without_hex_prefix (jobs : list record) (id : string) :
  strip_hex_prefix (snd (split_sign (trim_start id))) = None ->
  parseInt id 0 = parseInt id 10 /\
  (fst (getJob id jobs) = not_found <-> fst (deleteJob id jobs) = not_found).
Proof.
  intros Hhex.
  assert (parseInt id 0 = parseInt id 10) as Hparse.
  { unfold parseInt. destruct (split_sign (trim_start id)) as [sign rest].
    cbn [snd] in Hhex. cbn -[digits_prefix math_int strip_hex_prefix].
    by rewrite Hhex. }
  split; [done|].
  rewrite getJob_not_found_iff, deleteJob_not_found_iff. by rewrite Hparse.
Qed.

Lemma routes_agree_without_hex_prefix_witness :
  strip_hex_prefix (snd (split_sign (trim_start " +12abc"))) = None /\
  parseInt " +12abc" 0 = parseInt " +12abc" 10 /\
  (fst (getJob " +12abc" [applied]) = not_found <->
   fst (deleteJob " +12abc" [applied]) = not_found).
Proof.
  split; [reflexivity|].
  apply (routes_agree_without_hex_prefix [applied] " +12abc"). reflexivity.
Defined.

(** X17.  With a 0x prefix radix 10 stops at the x, so the identifier is
    a zero for update and delete: they act exactly as for the identifier
    ["0"], whatever hexadecimal digits follow. *)
Theorem hex_identifier_is_zero_for_update_and_delete
    (jobs : list record) (id : string) (body : record) :
  is_Some (strip_hex_prefix (snd (split_sign (trim_start id)))) ->
  (parseInt id 10 = Num 0 \/ parseInt id 10 = neg_zero) /\
  patchJob id body jobs = patchJob "0" body jobs /\
  deleteJob id jobs = deleteJob "0" jobs.
Proof.
  intros Hhex.
  assert (parseInt id 10 = Num 0 \/ parseInt id 10 = neg_zero) as Hparse.
  { unfold parseInt. destruct (split_sign (trim_start id)) as [sign rest].
    cbn [snd] in Hhex. destruct rest as [|a [|b rest]]; try by destruct Hhex.
    cbn [strip_hex_prefix] in Hhex.
    destruct ((code a =? 48)%Z && ((code b =? 120)%Z || (code b =? 88)%Z))
      eqn:E; [|by destruct Hhex].
    apply andb_true_iff in E as [Ha%Z.eqb_eq Hb%orb_true_iff].
    cbn -[code Num]. unfold digit_value. rewrite Ha.
    destruct Hb as [Hb%Z.eqb_eq|Hb%Z.eqb_eq]; rewrite Hb; cbn -[Num];
      repeat match goal with
             | |- context [(?x <? ?y)%Z] =>
                 let v := eval vm_compute in (x <? y)%Z in
                 change (x <? y)%Z with v
             end;
      cbn -[Num]; destruct (sign =? -1)%Z; [by right|by left|by right|by left]. }
  assert (forall job, has_id (parseInt id 10) job = has_id (parseInt "0" 10) job)
    as Hsame.
  { intros job. destruct Hparse as [-> | ->]; [done|]. apply has_id_neg_zero. }
  split; [done|]. split.
  - unfold patchJob.
    by rewrite (findIndex_ext _ _ jobs Hsame).
  - unfold deleteJob.
    by rewrite (findIndex_ext _ _ jobs Hsame).
Qed.

Lemma hex_identifier_is_zero_for_update_and_delete_witness :
  is_Some (strip_hex_prefix (snd (split_sign (trim_start "-0x1F")))) /\
  (parseInt "-0x1F" 10 = Num 0 \/ parseInt "-0x1F" 10 = neg_zero) /\
  patchJob "-0x1F" interviewing [applied]
    = patchJob "0" interviewing [applied] /\
  deleteJob "-0x1F" [applied] = deleteJob "0" [applied].
Proof.
  assert (is_Some (strip_hex_prefix (snd (split_sign (trim_start "-0x1F")))))
    as H by (eexists; reflexivity).
  split; [exact H|].
  exact (hex_identifier_is_zero_for_update_and_delete
           [applied] "-0x1F" interviewing H).
Defined.

(** X19.  After the create route has appended a body without a key [id],
    [getNextIdFromCollection] of the registry is [NaN], whatever ids the
    older records have. *)
Theorem next_id_after_create_without_id
    (number_to_string : number -> string) (jobs : list record) (body : record) :
  prop_id body = None ->
  getNextIdFromCollection number_to_string (snd (createJob body jobs))
    = PNum NaN.
Proof.
  intros Hbody. cbn [createJob snd]. unfold push.
  rewrite getNextIdFromCollection_last. by rewrite Hbody.
Qed.

Lemma next_id_after_create_without_id_witness :
  prop_id titleA = None /\
  getNextIdFromCollection show_small (snd (createJob titleA [applied; twelve]))
    = PNum NaN.
Proof.
  split; [reflexivity|].
  apply (next_id_after_create_without_id show_small [applied; twelve] titleA).
  reflexivity.
Defined.

End Routes.

(** ** The status buttons *)

Module Buttons.
Import Js App.

#[local] Open Scope nat_scope.

Lemma click_in_range (selectedStatus : number) (i : nat) :
  i < 6 -> click selectedStatus i = Num (Z.of_nat i + 1).
Proof.
  intros Hi. do 6 (destruct i as [|i]; [reflexivity|]). lia.
Qed.

Lemma click_out_of_range (selectedStatus : number) (i : nat) :
  6 <= i -> click selectedStatus i = selectedStatus.
Proof.
  intros Hi. unfold click. by rewrite lookup_ge_None_2.
Qed.

Lemma highlighted_selected (i : nat) :
  i < 6 -> highlighted (Num (Z.of_nat i + 1)) = [i].
Proof.
  intros Hi. do 6 (destruct i as [|i]; [by vm_compute|]). lia.
Qed.

Lemma clicks_snoc (positions : list nat) (i : nat) :
  clicks (positions ++ [i]) = click (clicks positions) i.
Proof. unfold clicks. by rewrite foldl_app. Qed.

(** The selected status is always one of the six keys: the one of the last
    button clicked, the first one before any click. *)
Lemma clicks_selected (positions : list nat) :
  clicks positions
    = Num (Z.of_nat (default 0 (last (filter (fun i => i < 6) positions))) + 1).
Proof.
  induction positions as [|i positions IH] using rev_ind; [done|].
  rewrite clicks_snoc, filter_app.
  destruct (decide (i < 6)) as [Hi|Hi].
  - rewrite (filter_cons_True _ i []) by done. rewrite filter_nil, last_snoc.
    by apply click_in_range.
  - rewrite (filter_cons_False _ i []) by done. rewrite filter_nil, app_nil_r.
    rewrite click_out_of_range by lia. done.
Qed.

(** X20.  In every render of the component exactly one status button is
    highlighted: the one clicked last, and the first one, "Bookmarked",
    as long as none was clicked. *)
Theorem one_status_button_highlighted (positions : list nat) :
  highlighted (clicks positions)
    = [default 0 (last (filter (fun i => i < 6) positions))] /\
  length (statusbuttons (clicks positions)) = 6.
Proof.
  split; [|done]. rewrite clicks_selected. apply highlighted_selected.
  destruct (last _) as [i|] eqn:E; cbn; [|lia].
  apply last_Some_elem_of in E. by apply list_elem_of_filter in E as [? _].
Qed.

End Buttons.

(** ** The recipe route *)

Module RecipesFacts.
Import Server Recipes.

(** X21.  The recipe route sends its own API key upstream: an [apiKey]
    in the query of the request changes neither the parameters of the
    upstream call nor the response, and every other parameter of the query
    is passed on as it is. *)
Theorem query_cannot_set_api_key
    (upstream : gmap string (option json) -> option json)
    (apiKey : option string) (query : gmap string json) (v : json) :
  recipes upstream apiKey (<["apiKey" := v]> query)
    = recipes upstream apiKey query /\
  params apiKey query !! "apiKey" = Some (JStr <$> apiKey) /\
  delete "apiKey" (params apiKey query) = Some <$> delete "apiKey" query.
Proof.
  split; [|split].
  - unfold recipes, params. by rewrite fmap_insert, insert_insert_eq.
  - unfold params. apply lookup_insert_eq.
  - unfold params. by rewrite delete_insert_eq, fmap_delete.
Qed.

End RecipesFacts.
